(** * smc_fuzzer: the SMC fuzzing engine of kernel_modules/smc_fuzzer.c

    A shallow embedding of the module's statistics block, its classifier
    ([execute_smc]), its two generators, the campaign loop, the seed-corpus
    smoke test and the /proc control surface, followed by the properties
    the specification states about them.

    Conventions.  Fixed-width C integers are [Z] values with the
    wrap-around written out ([u32], [u64], [s64]).  The module is built for
    a 64-bit ARM kernel: [unsigned long] (the type of [arm_smccc_res.a0])
    is 64 bits wide.  printk output (pr_info, pr_err, pr_debug) is not
    part of the model. *)

From Stdlib Require Import ZArith List Bool String Ascii Lia.
From Stdlib Require Import DecimalString HexadecimalString.
From Stdlib Require Import DecimalN DecimalPos HexadecimalN HexadecimalPos.
Import ListNotations.
Open Scope Z_scope.

(* ------------------------------------------------------------------ *)
(** ** Machine words *)

Definition u32 (x : Z) : Z := x mod 2 ^ 32.
Definition u64 (x : Z) : Z := x mod 2 ^ 64.

(** The cast [(s64)x] of a 64-bit word. *)
Definition s64 (x : Z) : Z :=
  let y := u64 x in if y <? 2 ^ 63 then y else y - 2 ^ 64.

(* ------------------------------------------------------------------ *)
(** ** The statistics block *)

Record fuzz_stats : Type := mk_stats {
  total_iterations : Z;   (* u64 *)
  crashes : Z;            (* u64 *)
  hangs : Z;              (* u64 *)
  interesting_cases : Z;  (* u64 *)
  valid_responses : Z;    (* u64 *)
  error_responses : Z;    (* u64 *)
  last_smc_id : Z;        (* u32 *)
  last_result : Z         (* s64 *)
}.

(** [static struct fuzz_stats stats = {0};] and [memset(&stats, 0, ...)]. *)
Definition zero_stats : fuzz_stats := mk_stats 0 0 0 0 0 0 0 0.

Definition inc_total (s : fuzz_stats) : fuzz_stats :=
  mk_stats (u64 (total_iterations s + 1)) (crashes s) (hangs s)
           (interesting_cases s) (valid_responses s) (error_responses s)
           (last_smc_id s) (last_result s).

Definition inc_interesting (s : fuzz_stats) : fuzz_stats :=
  mk_stats (total_iterations s) (crashes s) (hangs s)
           (u64 (interesting_cases s + 1)) (valid_responses s)
           (error_responses s) (last_smc_id s) (last_result s).

Definition inc_valid (s : fuzz_stats) : fuzz_stats :=
  mk_stats (total_iterations s) (crashes s) (hangs s)
           (interesting_cases s) (u64 (valid_responses s + 1))
           (error_responses s) (last_smc_id s) (last_result s).

Definition inc_error (s : fuzz_stats) : fuzz_stats :=
  mk_stats (total_iterations s) (crashes s) (hangs s)
           (interesting_cases s) (valid_responses s)
           (u64 (error_responses s + 1)) (last_smc_id s) (last_result s).

Definition set_last (id res : Z) (s : fuzz_stats) : fuzz_stats :=
  mk_stats (total_iterations s) (crashes s) (hangs s)
           (interesting_cases s) (valid_responses s) (error_responses s)
           id res.

(* ------------------------------------------------------------------ *)
(** ** The host: entropy source and secure monitor *)

(** What the kernel log of the model records: every call that reached the
    secure monitor, with its six arguments and the primary result word,
    and every call of [cond_resched]. *)
Inductive Event : Type :=
| EvSmc (func_id : Z) (args : list Z) (a0 : Z)
| EvResched.

(** The two external collaborators.  [entropy k] is the raw word the
    kernel RNG hands out at its [k]-th request; [monitor h id args] is the
    primary result word the secure monitor answers to a call, which may
    depend on everything [h] it was asked before. *)
Class Host : Type := {
  entropy : nat -> Z;
  monitor : list Event -> Z -> list Z -> Z
}.

(** The module's globals together with the parts of the environment that
    evolve: how many RNG words were consumed, the log, and the stores to
    [fuzzing_enabled] that a concurrent writer of the control file lands
    before the successive loads of the flag by a running campaign
    ([None]: no store before that load). *)
Record Machine : Type := mk_machine {
  stats : fuzz_stats;
  fuzzing_enabled : bool;
  drawn : nat;
  klog : list Event;
  pending : list (option bool)
}.

Definition with_stats (f : fuzz_stats -> fuzz_stats) (m : Machine) : Machine :=
  mk_machine (f (stats m)) (fuzzing_enabled m) (drawn m) (klog m) (pending m).

Definition with_enabled (b : bool) (m : Machine) : Machine :=
  mk_machine (stats m) b (drawn m) (klog m) (pending m).

Definition with_event (e : Event) (m : Machine) : Machine :=
  mk_machine (stats m) (fuzzing_enabled m) (drawn m) (klog m ++ [e]) (pending m).

Definition with_draw (m : Machine) : Machine :=
  mk_machine (stats m) (fuzzing_enabled m) (S (drawn m)) (klog m) (pending m).

(** State passing. *)
Definition M (A : Type) : Type := Machine -> A * Machine.

Definition ret {A} (a : A) : M A := fun m => (a, m).

Definition bind {A B} (c : M A) (k : A -> M B) : M B :=
  fun m => let (a, m') := c m in k a m'.

Definition modify (f : Machine -> Machine) : M unit := fun m => (tt, f m).

Declare Scope fz_scope.
Delimit Scope fz_scope with fz.
Notation "x <- c ;; k" := (bind c (fun x => k))
  (at level 61, c at next level, right associativity) : fz_scope.
Notation "c ;;; k" := (bind c (fun _ => k))
  (at level 61, right associativity) : fz_scope.
Open Scope fz_scope.

(* ------------------------------------------------------------------ *)
(** ** Constants *)

Definition OPTEE_SMC_CALL_RETURN_FROM_RPC : Z := 0xb2000003.
Definition OPTEE_SMC_CALL_WITH_ARG : Z := 0xb2000004.
Definition OPTEE_SMC_GET_SHM_CONFIG : Z := 0xb2000007.
Definition OPTEE_SMC_EXCHANGE_CAPABILITIES : Z := 0xb2000009.
Definition OPTEE_SMC_DISABLE_SHM_CACHE : Z := 0xb200000a.
Definition OPTEE_SMC_ENABLE_SHM_CACHE : Z := 0xb200000b.

Definition known_smc_ids : list Z :=
  [ OPTEE_SMC_CALL_RETURN_FROM_RPC;
    OPTEE_SMC_CALL_WITH_ARG;
    OPTEE_SMC_GET_SHM_CONFIG;
    OPTEE_SMC_EXCHANGE_CAPABILITIES;
    OPTEE_SMC_DISABLE_SHM_CACHE;
    OPTEE_SMC_ENABLE_SHM_CACHE ].

Definition ARRAY_SIZE {A} (a : list A) : Z := Z.of_nat (List.length a).

Definition EINVAL : Z := 22.
Definition EFAULT : Z := 14.
Definition ENOMEM : Z := 12.

(* ------------------------------------------------------------------ *)
(** ** The engine *)

Section Engine.
Context {host : Host}.

Definition get_random_u32 : M Z :=
  fun m => (u32 (entropy (drawn m)), with_draw m).

Definition get_random_u64 : M Z :=
  fun m => (u64 (entropy (drawn m)), with_draw m).

(** [arm_smccc_smc(func_id, a1, ..., a6, 0, res)]; only [res->a0] is ever
    read by the module. *)
Definition arm_smccc_smc (func_id a1 a2 a3 a4 a5 a6 : Z) : M Z :=
  fun m =>
    let args := [a1; a2; a3; a4; a5; a6] in
    let a0 := u64 (monitor (klog m) func_id args) in
    (a0, with_event (EvSmc func_id args a0) m).

(** Returns the C return value paired with [res->a0]. *)
Definition execute_smc (func_id a1 a2 a3 a4 a5 a6 : Z) : M (Z * Z) :=
  a0 <- arm_smccc_smc func_id a1 a2 a3 a4 a5 a6 ;;
  modify (with_stats (set_last func_id (s64 a0))) ;;;
  if a0 =? 0 then
    modify (with_stats inc_valid) ;;; ret (0, a0)
  else if s64 a0 <? 0 then
    modify (with_stats inc_error) ;;; ret (-1, a0)
  else
    modify (with_stats inc_interesting) ;;; ret (0, a0).

(** The test [get_random_u32() % 2] on a drawn word. *)
Definition picks_corpus (r : Z) : bool := negb (r mod 2 =? 0).

Definition generate_random_smc_id (use_known : bool) : M Z :=
  known <- (if use_known
            then r <- get_random_u32 ;; ret (picks_corpus r)
            else ret false) ;;
  if known then
    r <- get_random_u32 ;;
    let idx := r mod ARRAY_SIZE known_smc_ids in
    ret (nth (Z.to_nat idx) known_smc_ids 0)
  else
    r <- get_random_u32 ;;
    ret (Z.lor 0xb2000000 (Z.land r 0x00ffffff)).

Definition generate_random_param : M Z :=
  r <- get_random_u32 ;;
  let pattern := r mod 10 in
  match pattern with
  | 0 => ret 0
  | 1 => ret 0xFFFFFFFFFFFFFFFF
  | 2 => ret 0x8000000000000000
  | 3 => ret 0x7FFFFFFFFFFFFFFF
  | 4 => get_random_u32
  | 5 => get_random_u64
  | 6 => ret 0x1000
  | 7 => r' <- get_random_u32 ;; ret (u32 (0x1000 + Z.land r' 0xFFF))
  | 8 => ret (u64 (-1))
  | _ => r' <- get_random_u64 ;; ret (Z.land r' 0xFFFFFFFF)
  end.

(** [for (i = 0; i < 6; i++) params[i] = generate_random_param();] *)
Fixpoint fill_params (n : nat) : M (list Z) :=
  match n with
  | O => ret []
  | S k => p <- generate_random_param ;;
           ps <- fill_params k ;;
           ret (p :: ps)
  end.

Definition fuzz_iteration : M Z :=
  modify (with_stats inc_total) ;;;
  func_id <- generate_random_smc_id true ;;
  params <- fill_params 6 ;;
  _ <- execute_smc func_id (nth 0 params 0) (nth 1 params 0) (nth 2 params 0)
                   (nth 3 params 0) (nth 4 params 0) (nth 5 params 0) ;;
  ret 0.

(** One load of the shared flag by the campaign loop.  A store of a
    concurrent writer that is due before this load lands first. *)
Definition load_fuzzing_enabled : M bool :=
  fun m =>
    match pending m with
    | [] => (fuzzing_enabled m, m)
    | w :: rest =>
        let en := match w with Some b => b | None => fuzzing_enabled m end in
        (en, mk_machine (stats m) en (drawn m) (klog m) rest)
    end.

Definition cond_resched : M unit := modify (with_event EvResched).

(** The body of [for (i = 0; i < iterations; i++)], with [remaining] the
    number of trips the bound still allows ([iterations - i]).  [i] never
    wraps: it stays below [iterations <= 2^32 - 1].  The value returned is
    the final [i], which the closing pr_info prints. *)
Fixpoint campaign_loop (remaining : nat) (i : Z) : M Z :=
  match remaining with
  | O => ret i
  | S k =>
      en <- load_fuzzing_enabled ;;
      if negb en then ret i
      else
        fuzz_iteration ;;;
        (if i mod 100 =? 0 then cond_resched else ret tt) ;;;
        campaign_loop k (i + 1)
  end.

Definition run_fuzzing_campaign (iterations : Z) : M Z :=
  campaign_loop (Z.to_nat iterations) 0.

(** [for (i = 0; i < ARRAY_SIZE(known_smc_ids); i++)] over the array. *)
Fixpoint test_known_loop (ids : list Z) : M unit :=
  match ids with
  | [] => ret tt
  | id :: rest => execute_smc id 0 0 0 0 0 0 ;;; test_known_loop rest
  end.

Definition test_known_smcs : M Z :=
  test_known_loop known_smc_ids ;;; ret 0.

End Engine.

(* ------------------------------------------------------------------ *)
(** ** C strings and the two library routines the command parser uses

    [strncmp] and [sscanf] belong to the kernel library, not to the
    module; they are written out here for the one format and the
    comparisons the module uses (lib/string.c, lib/vsprintf.c). *)

Definition NUL : ascii := "000"%char.

(** The C string held by a buffer: the bytes before the first NUL. *)
Fixpoint cstr (s : string) : string :=
  match s with
  | EmptyString => EmptyString
  | String c r => if Ascii.eqb c NUL then EmptyString else String c (cstr r)
  end.

Definition code (c : ascii) : Z := Z.of_nat (nat_of_ascii c).

(** The kernel's ctype table: TAB..CR, space and 0xA0 are white space. *)
Definition isspace (c : ascii) : bool :=
  let n := code c in
  ((9 <=? n) && (n <=? 13)) || (n =? 32) || (n =? 160).

Definition isdigit (c : ascii) : bool :=
  let n := code c in (48 <=? n) && (n <=? 57).

Fixpoint skip_spaces (s : string) : string :=
  match s with
  | String c r => if isspace c then skip_spaces r else s
  | EmptyString => s
  end.

(** [strncmp(s1, s2, n)] on C strings; only its being zero is used. *)
Fixpoint strncmp (s1 s2 : string) (n : nat) {struct n} : Z :=
  match n with
  | O => 0
  | S k =>
      match s1, s2 with
      | EmptyString, EmptyString => 0
      | EmptyString, String _ _ => -1
      | String _ _, EmptyString => 1
      | String c1 r1, String c2 r2 =>
          if Ascii.eqb c1 c2 then strncmp r1 r2 k
          else if code c1 <? code c2 then -1 else 1
      end
  end.

(** Literal characters of a scanf format must match one for one. *)
Fixpoint match_literal (lit str : string) : option string :=
  match lit with
  | EmptyString => Some str
  | String c l =>
      match str with
      | String d r => if Ascii.eqb c d then match_literal l r else None
      | EmptyString => None
      end
  end.

(** [simple_strntoull] in base 10: digits are accumulated in a u64. *)
Fixpoint parse_decimal (s : string) (acc : Z) : Z :=
  match s with
  | String c r =>
      if isdigit c then parse_decimal r (u64 (acc * 10 + (code c - 48)))
      else acc
  | EmptyString => acc
  end.

(** [sscanf(buf, "fuzz %u", &iterations)]: [Some n] when it returns 1 and
    stores [n], [None] when it returns 0. *)
Definition sscanf_fuzz_u (buf : string) : option Z :=
  match match_literal "fuzz" buf with
  | None => None
  | Some str =>
      let str := skip_spaces str in
      match str with
      | EmptyString => None
      | String digit _ =>
          if isdigit digit then Some (u32 (parse_decimal str 0)) else None
      end
  end.

(* ------------------------------------------------------------------ *)
(** ** The status text *)

Definition nl : string := String "010"%char EmptyString.
Definition dq : string := String "034"%char EmptyString.

Definition fmt_llu (x : Z) : string :=
  DecimalString.NilZero.string_of_uint (N.to_uint (Z.to_N (u64 x))).

Definition fmt_llx (x : Z) : string :=
  HexadecimalString.NilZero.string_of_uint (N.to_hex_uint (Z.to_N (u64 x))).

Fixpoint zeros (n : nat) : string :=
  match n with O => EmptyString | S k => String "0"%char (zeros k) end.

Definition fmt_08x (x : Z) : string :=
  let h := HexadecimalString.NilZero.string_of_uint
             (N.to_hex_uint (Z.to_N (u32 x))) in
  (zeros (8 - String.length h) ++ h)%string.

Definition PROC_NAME : string := "smc_fuzzer".

Definition command_help : string :=
  (nl ++ "Commands:" ++ nl ++
   "  echo " ++ dq ++ "fuzz N" ++ dq ++ " > /proc/" ++ PROC_NAME
     ++ "     # Run N iterations" ++ nl ++
   "  echo " ++ dq ++ "test" ++ dq ++ " > /proc/" ++ PROC_NAME
     ++ "       # Test known SMCs" ++ nl ++
   "  echo " ++ dq ++ "enable" ++ dq ++ " > /proc/" ++ PROC_NAME
     ++ "     # Enable fuzzing" ++ nl ++
   "  echo " ++ dq ++ "disable" ++ dq ++ " > /proc/" ++ PROC_NAME
     ++ "    # Disable fuzzing" ++ nl ++
   "  echo " ++ dq ++ "reset" ++ dq ++ " > /proc/" ++ PROC_NAME
     ++ "      # Reset statistics" ++ nl)%string.

(** What the format string of [proc_read] expands to. *)
Definition status_text (enabled : bool) (s : fuzz_stats) : string :=
  ("SMC Fuzzer Status" ++ nl ++
   "=================" ++ nl ++
   "Fuzzing Enabled: " ++ (if enabled then "yes" else "no") ++ nl ++
   "Total Iterations: " ++ fmt_llu (total_iterations s) ++ nl ++
   "Crashes: " ++ fmt_llu (crashes s) ++ nl ++
   "Hangs: " ++ fmt_llu (hangs s) ++ nl ++
   "Interesting Cases: " ++ fmt_llu (interesting_cases s) ++ nl ++
   "Valid Responses: " ++ fmt_llu (valid_responses s) ++ nl ++
   "Error Responses: " ++ fmt_llu (error_responses s) ++ nl ++
   "Last SMC ID: 0x" ++ fmt_08x (last_smc_id s) ++ nl ++
   "Last Result: 0x" ++ fmt_llx (last_result s) ++ nl ++
   command_help)%string.

(** [snprintf(buf, size, ...)] keeps at most [size - 1] characters. *)
Fixpoint take (n : nat) (s : string) : string :=
  match n, s with
  | S k, String c r => String c (take k r)
  | _, _ => EmptyString
  end.

(** [proc_read]: the return value, the new [*ppos] and the text left in
    [buf], of which the first [len] bytes go to the user.  When [len]
    exceeds the 511 characters [buf] can hold, the bytes past the buffer
    are not described here. *)
Definition proc_read (ppos : Z) (user_writable : bool) (m : Machine)
  : Z * Z * string :=
  if ppos >? 0 then (0, ppos, EmptyString)
  else
    let text := status_text (fuzzing_enabled m) (stats m) in
    let len := Z.of_nat (String.length text) in
    let buf := take 511 text in
    if negb user_writable then (- EFAULT, ppos, buf)
    else (len, len, buf).

(** *** The loads of a status read, one at a time

    [proc_read] takes no lock: the flag and the eight fields are loaded
    one after the other while the arguments of [snprintf] are evaluated,
    and a write to the control file running on another CPU can land
    between two of the loads. *)
Inductive Field : Type :=
| FEnabled | FTotal | FCrashes | FHangs | FInteresting | FValid | FError
| FLastId | FLastResult.

(** The argument list of the [snprintf] call, in order. *)
Definition status_args : list Field :=
  [FEnabled; FTotal; FCrashes; FHangs; FInteresting; FValid; FError;
   FLastId; FLastResult].

(** One load: the field of the shared state is copied into the reader's
    private copy. *)
Definition load_into (m : Machine) (snap : bool * fuzz_stats) (f : Field)
  : bool * fuzz_stats :=
  let (en, s) := snap in
  let g := stats m in
  match f with
  | FEnabled => (fuzzing_enabled m, s)
  | FTotal =>
      (en, mk_stats (total_iterations g) (crashes s) (hangs s)
             (interesting_cases s) (valid_responses s) (error_responses s)
             (last_smc_id s) (last_result s))
  | FCrashes =>
      (en, mk_stats (total_iterations s) (crashes g) (hangs s)
             (interesting_cases s) (valid_responses s) (error_responses s)
             (last_smc_id s) (last_result s))
  | FHangs =>
      (en, mk_stats (total_iterations s) (crashes s) (hangs g)
             (interesting_cases s) (valid_responses s) (error_responses s)
             (last_smc_id s) (last_result s))
  | FInteresting =>
      (en, mk_stats (total_iterations s) (crashes s) (hangs s)
             (interesting_cases g) (valid_responses s) (error_responses s)
             (last_smc_id s) (last_result s))
  | FValid =>
      (en, mk_stats (total_iterations s) (crashes s) (hangs s)
             (interesting_cases s) (valid_responses g) (error_responses s)
             (last_smc_id s) (last_result s))
  | FError =>
      (en, mk_stats (total_iterations s) (crashes s) (hangs s)
             (interesting_cases s) (valid_responses s) (error_responses g)
             (last_smc_id s) (last_result s))
  | FLastId =>
      (en, mk_stats (total_iterations s) (crashes s) (hangs s)
             (interesting_cases s) (valid_responses s) (error_responses s)
             (last_smc_id g) (last_result s))
  | FLastResult =>
      (en, mk_stats (total_iterations s) (crashes s) (hangs s)
             (interesting_cases s) (valid_responses s) (error_responses s)
             (last_smc_id s) (last_result g))
  end.

Definition loads (fs : list Field) (m : Machine) (snap : bool * fuzz_stats)
  : bool * fuzz_stats :=
  fold_left (load_into m) fs snap.

(** A read during which the shared state goes from [m] to [m'] after the
    first [k] loads. *)
Definition overlapped_read (k : nat) (m m' : Machine) : bool * fuzz_stats :=
  loads (skipn k status_args) m'
        (loads (firstn k status_args) m (false, zero_stats)).

(* ------------------------------------------------------------------ *)
(** ** The control surface and module load *)

Section Control.
Context {host : Host}.

(** [proc_write(file, ubuf, count, ppos)]: [ubuf] is the [count] bytes the
    user wrote, [user_readable] whether [copy_from_user] succeeds. *)
Definition proc_write (user_readable : bool) (ubuf : string) : M Z :=
  let count := Z.of_nat (String.length ubuf) in
  if 128 <=? count then ret (- EINVAL)
  else if negb user_readable then ret (- EFAULT)
  else
    let buf := cstr ubuf in
    match sscanf_fuzz_u buf with
    | Some iterations => run_fuzzing_campaign iterations ;;; ret count
    | None =>
        if strncmp buf "test" 4 =? 0 then
          test_known_smcs ;;; ret count
        else if strncmp buf "enable" 6 =? 0 then
          modify (with_enabled true) ;;; ret count
        else if strncmp buf "disable" 7 =? 0 then
          modify (with_enabled false) ;;; ret count
        else if strncmp buf "reset" 5 =? 0 then
          modify (with_stats (fun _ => zero_stats)) ;;; ret count
        else ret (- EINVAL)
    end.

(** [smc_fuzzer_init]; [proc_created] tells whether [proc_create] returned
    an entry. *)
Definition smc_fuzzer_init (proc_created : bool) : M Z :=
  if negb proc_created then ret (- ENOMEM)
  else test_known_smcs ;;; ret 0.

(** A sequence of writes to the control file, one after the other. *)
Fixpoint writes (ws : list (bool * string)) : M unit :=
  match ws with
  | [] => ret tt
  | (ok, w) :: rest => proc_write ok w ;;; writes rest
  end.

End Control.

(** The globals as the loader leaves them, before [smc_fuzzer_init] runs:
    [stats = {0}], [fuzzing_enabled = true]. *)
Definition insmod (d : nat) (p : list (option bool)) : Machine :=
  mk_machine zero_stats true d [] p.

(* ------------------------------------------------------------------ *)
(** ** Two concrete hosts *)

(** A monitor that answers 0 to everything, on an all-zero entropy tape. *)
Definition quiet_host : Host :=
  {| entropy := fun _ => 0; monitor := fun _ _ _ => 0 |}.

(** A monitor that answers with its first argument, on an entropy tape
    that counts upwards. *)
Definition echo_host : Host :=
  {| entropy := fun k => Z.of_nat k;
     monitor := fun _ _ args => nth 0 args 0 |}.

(* ------------------------------------------------------------------ *)
(** ** Vocabulary of the specification

    The definitions below follow the wording of the specification; the
    theorems compare them with the engine above. *)

(** The outcome taxonomy of the data model. *)
Inductive Outcome : Type := Valid | ErrorReturn | Interesting | Crash | Hang.

Definition Outcome_eqb (a b : Outcome) : bool :=
  match a, b with
  | Valid, Valid | ErrorReturn, ErrorReturn | Interesting, Interesting
  | Crash, Crash | Hang, Hang => true
  | _, _ => false
  end.

(** Zero is the success sentinel; a word that is negative when read as
    signed is an error return; anything else is interesting. *)
Definition classify (a0 : Z) : Outcome :=
  if a0 =? 0 then Valid
  else if s64 a0 <? 0 then ErrorReturn
  else Interesting.

Definition counter (o : Outcome) (s : fuzz_stats) : Z :=
  match o with
  | Valid => valid_responses s
  | ErrorReturn => error_responses s
  | Interesting => interesting_cases s
  | Crash => crashes s
  | Hang => hangs s
  end.

(** The sum the consistency rule of the data model compares with the
    iteration count. *)
Definition outcome_sum (s : fuzz_stats) : Z :=
  valid_responses s + error_responses s + interesting_cases s.

(** The ten generation patterns of the parameter generator, in the order
    the specification lists them. *)
Inductive Pattern : Type :=
| PZero | PAllOnes | PSignBit | PMaxPositive | PRandom32 | PRandom64
| PPage | PNearPage | PAllOnesAlt | PRandomLow32.

Definition pattern_table : list Pattern :=
  [PZero; PAllOnes; PSignBit; PMaxPositive; PRandom32; PRandom64;
   PPage; PNearPage; PAllOnesAlt; PRandomLow32].

(** The word a pattern yields; [w] is the raw word of the pattern's own
    random draw, for the four patterns that make one. *)
Definition pattern_value (p : Pattern) (w : Z) : Z :=
  match p with
  | PZero => 0
  | PAllOnes => 2 ^ 64 - 1
  | PSignBit => 2 ^ 63
  | PMaxPositive => 2 ^ 63 - 1
  | PRandom32 => w mod 2 ^ 32
  | PRandom64 => w mod 2 ^ 64
  | PPage => 4096
  | PNearPage => 4096 + w mod 2 ^ 12
  | PAllOnesAlt => 2 ^ 64 - 1
  | PRandomLow32 => w mod 2 ^ 32
  end.

Definition pattern_draws (p : Pattern) : nat :=
  match p with
  | PRandom32 | PRandom64 | PNearPage | PRandomLow32 => 1
  | _ => 0
  end.

(** The state with [n] more RNG words consumed and nothing else changed. *)
Definition advance (n : nat) (m : Machine) : Machine :=
  mk_machine (stats m) (fuzzing_enabled m) (drawn m + n) (klog m) (pending m).

(** The number of loop checks of a campaign of [n] trips that see the flag
    set, counted up to the first one that sees it clear. *)
Fixpoint checks_passed (n : nat) (en : bool) (p : list (option bool)) : nat :=
  match n with
  | O => O
  | S k =>
      match p with
      | [] => if en then S (checks_passed k en []) else O
      | w :: r =>
          let en' := match w with Some b => b | None => en end in
          if en' then S (checks_passed k en' r) else O
      end
  end.

Definition is_disable (w : option bool) : bool :=
  match w with Some false => true | _ => false end.

(** The flag is set when the campaign starts and no store clears it before
    any of the [n] loop checks. *)
Definition enabled_throughout (n : nat) (en : bool) (p : list (option bool))
  : bool :=
  en && forallb (fun w => negb (is_disable w)) (firstn n p).

(** For every [cond_resched] in a stretch of the log, the number of calls
    to the secure monitor before it ([c] of them precede the stretch). *)
Fixpoint yield_points (c : nat) (evs : list Event) : list nat :=
  match evs with
  | [] => []
  | EvSmc _ _ _ :: r => yield_points (S c) r
  | EvResched :: r => c :: yield_points c r
  end.

Definition is_call (e : Event) : bool :=
  match e with EvSmc _ _ _ => true | EvResched => false end.

Definition calls (evs : list Event) : list Event := filter is_call evs.

(** The zero-based loop indices below [n] that are multiples of 100. *)
Definition yield_indices (n : nat) : list nat :=
  filter (fun j => (j mod 100 =? 0)%nat) (seq 0 n).

(** What a write to the control file is taken for. *)
Inductive Verb : Type :=
| VFuzz (iterations : Z) | VTest | VEnable | VDisable | VReset
| VTooLong | VFault | VUnknown.

Definition decode (user_readable : bool) (ubuf : string) : Verb :=
  if 128 <=? Z.of_nat (String.length ubuf) then VTooLong
  else if negb user_readable then VFault
  else
    let buf := cstr ubuf in
    match sscanf_fuzz_u buf with
    | Some n => VFuzz n
    | None =>
        if strncmp buf "test" 4 =? 0 then VTest
        else if strncmp buf "enable" 6 =? 0 then VEnable
        else if strncmp buf "disable" 7 =? 0 then VDisable
        else if strncmp buf "reset" 5 =? 0 then VReset
        else VUnknown
    end.

Definition is_rejected (v : Verb) : bool :=
  match v with VTooLong | VUnknown => true | _ => false end.

(** The number of seed-corpus tests since the statistics were last
    zeroed, [k] of them before the writes [vs]. *)
Fixpoint tests_since_reset (k : Z) (vs : list Verb) : Z :=
  match vs with
  | [] => k
  | VTest :: r => tests_since_reset (k + 1) r
  | VReset :: r => tests_since_reset 0 r
  | _ :: r => tests_since_reset k r
  end.

Section Perform.
Context {host : Host}.

(** The effect of a decoded write; [count] is the length written. *)
Definition perform (v : Verb) (count : Z) : M Z :=
  match v with
  | VFuzz n => run_fuzzing_campaign n ;;; ret count
  | VTest => test_known_smcs ;;; ret count
  | VEnable => modify (with_enabled true) ;;; ret count
  | VDisable => modify (with_enabled false) ;;; ret count
  | VReset => modify (with_stats (fun _ => zero_stats)) ;;; ret count
  | VTooLong | VUnknown => ret (- EINVAL)
  | VFault => ret (- EFAULT)
  end.

(** The value of the slot filled when the RNG stands at word [p]. *)
Definition slot_pattern (p : nat) : Pattern :=
  nth (Z.to_nat (u32 (entropy p) mod 10)) pattern_table PZero.

Definition slot_value (p : nat) : Z :=
  pattern_value (slot_pattern p) (entropy (S p)).

Definition slot_cells (p : nat) : nat := S (pattern_draws (slot_pattern p)).

(** Where the RNG stands when each of [n] successive slots is filled. *)
Fixpoint slot_positions (n : nat) (p : nat) : list nat :=
  match n with
  | O => []
  | S k => p :: slot_positions k (p + slot_cells p)
  end.

(** Where the RNG stands after [n] successive slots were filled. *)
Fixpoint slots_end (n : nat) (p : nat) : nat :=
  match n with
  | O => p
  | S k => slots_end k (p + slot_cells p)
  end.

(** The state after one trip of the loop at index [i] that found the flag
    set. *)
Definition trip (i : Z) (m : Machine) : Machine :=
  let m2 := snd (fuzz_iteration (snd (load_fuzzing_enabled m))) in
  if i mod 100 =? 0 then with_event EvResched m2 else m2.

End Perform.

(** [lit] is a prefix of [s]. *)
Definition begins (lit s : string) : Prop := exists t, s = (lit ++ t)%string.

(** The status text of zeroed statistics, line by line. *)
Definition zero_status_text (enabled : bool) : string :=
  ("SMC Fuzzer Status" ++ nl ++
   "=================" ++ nl ++
   "Fuzzing Enabled: " ++ (if enabled then "yes" else "no") ++ nl ++
   "Total Iterations: 0" ++ nl ++
   "Crashes: 0" ++ nl ++
   "Hangs: 0" ++ nl ++
   "Interesting Cases: 0" ++ nl ++
   "Valid Responses: 0" ++ nl ++
   "Error Responses: 0" ++ nl ++
   "Last SMC ID: 0x00000000" ++ nl ++
   "Last Result: 0x0" ++ nl ++
   command_help)%string.

(** *** Concrete states used in the examples *)

(** A freshly loaded module on which a concurrent disable lands after 37
    loop checks. *)
Definition disabled_after_37 : Machine :=
  insmod 0 (repeat None 37 ++ [Some false]).

(** The quiet host after module load and one fuzz iteration. *)
Definition after_one_iteration : Machine :=
  snd (@proc_write quiet_host true "fuzz 1"
         (snd (@smc_fuzzer_init quiet_host true (insmod 0 [])))).

(** The same state once "reset" was written. *)
Definition after_reset : Machine :=
  snd (@proc_write quiet_host true "reset" after_one_iteration).

(* ------------------------------------------------------------------ *)
(** ** Further vocabulary: numerals, calls, invariants *)

(** The decimal numeral of [n], as printf's %u or a user would write it. *)
Definition decimal (n : N) : string :=
  DecimalString.NilZero.string_of_uint (N.to_uint n).

Fixpoint all_spaces (s : string) : bool :=
  match s with
  | EmptyString => true
  | String c r => isspace c && all_spaces r
  end.

Definition starts_with_digit (s : string) : bool :=
  match s with
  | String c _ => isdigit c
  | EmptyString => false
  end.

(** Big-endian value of a digit sequence, continuing from [acc]. *)
Fixpoint eval_be (d : Decimal.uint) (acc : Z) : Z :=
  match d with
  | Decimal.Nil => acc
  | Decimal.D0 l => eval_be l (10 * acc)
  | Decimal.D1 l => eval_be l (10 * acc + 1)
  | Decimal.D2 l => eval_be l (10 * acc + 2)
  | Decimal.D3 l => eval_be l (10 * acc + 3)
  | Decimal.D4 l => eval_be l (10 * acc + 4)
  | Decimal.D5 l => eval_be l (10 * acc + 5)
  | Decimal.D6 l => eval_be l (10 * acc + 6)
  | Decimal.D7 l => eval_be l (10 * acc + 7)
  | Decimal.D8 l => eval_be l (10 * acc + 8)
  | Decimal.D9 l => eval_be l (10 * acc + 9)
  end.

(** No byte of [s] is NUL. *)
Fixpoint no_nul (s : string) : bool :=
  match s with
  | EmptyString => true
  | String c r => negb (Ascii.eqb c NUL) && no_nul r
  end.

(** What the command parser takes the C string [buf] for: the chain of
    tests of [proc_write] after the length check and the copy. *)
Definition interpret (buf : string) : Verb :=
  match sscanf_fuzz_u buf with
  | Some n => VFuzz n
  | None =>
      if strncmp buf "test" 4 =? 0 then VTest
      else if strncmp buf "enable" 6 =? 0 then VEnable
      else if strncmp buf "disable" 7 =? 0 then VDisable
      else if strncmp buf "reset" 5 =? 0 then VReset
      else VUnknown
  end.

(** The verbs that are carried out. *)
Definition is_accepted (v : Verb) : bool :=
  match v with
  | VFuzz _ | VTest | VEnable | VDisable | VReset => true
  | _ => false
  end.


(** [x] is a 64-bit word. *)
Definition in_u64 (x : Z) : Prop := 0 <= x < 2 ^ 64.

(** What every call the module issues looks like. *)
Definition well_formed_call (e : Event) : Prop :=
  match e with
  | EvSmc id args a0 =>
      0xb2000000 <= id <= 0xb2ffffff /\
      List.length args = 6%nat /\ Forall in_u64 args /\ in_u64 a0
  | EvResched => True
  end.

(** The event is a call whose result the classifier puts in class [o]. *)
Definition in_class (o : Outcome) (e : Event) : bool :=
  match e with
  | EvSmc _ _ a0 => Outcome_eqb o (classify a0)
  | EvResched => false
  end.

(** The number of calls in a stretch of the log whose result falls in
    class [o]. *)
Definition count_class (o : Outcome) (evs : list Event) : Z :=
  Z.of_nat (List.length (filter (in_class o) evs)).

(** Identifier and result of the most recent call in the log. *)
Definition last_call (evs : list Event) : option (Z * Z) :=
  fold_left (fun acc e => match e with
                          | EvSmc id _ a0 => Some (id, a0)
                          | EvResched => acc
                          end) evs None.

(** The write zeroes the statistics. *)
Definition is_reset (v : Verb) : bool :=
  match v with VReset => true | _ => false end.

(** What a sequence of writes is taken for, write by write. *)
Definition decoded (ws : list (bool * string)) : list Verb :=
  map (fun w => decode (fst w) (snd w)) ws.

(** The event is a call of [cond_resched]. *)
Definition is_resched (e : Event) : bool :=
  match e with EvResched => true | _ => false end.

Section Steps.
Context {host : Host}.

(** [P] is kept by the three steps of a loop trip: the load of the flag,
    the fuzz iteration and the yield. *)
Definition campaign_step (P : Machine -> Prop) : Prop :=
  (forall m, P m -> P (snd (load_fuzzing_enabled m))) /\
  (forall m, P m -> P (snd (fuzz_iteration m))) /\
  (forall m, P m -> P (with_event EvResched m)).

(** [P] is kept by every step of a campaign, by a call of the seed-corpus
    test and by a store to the flag. *)
Definition engine_step (P : Machine -> Prop) : Prop :=
  campaign_step P /\
  (forall id m, In id known_smc_ids -> P m ->
                P (snd (execute_smc id 0 0 0 0 0 0 m))) /\
  (forall b m, P m -> P (with_enabled b m)).

(** [P] is kept by zeroing the statistics. *)
Definition reset_step (P : Machine -> Prop) : Prop :=
  forall m, P m -> P (with_stats (fun _ => zero_stats) m).

(** The log grew by [evs] since [m0] and every counter grew by the number
    of calls of its class among them. *)
Definition counted_since (m0 m : Machine) : Prop :=
  exists evs,
    klog m = klog m0 ++ evs /\
    forall o, u64 (counter o (stats m)) =
              u64 (counter o (stats m0) + count_class o evs).

(** The last-identifier and last-result fields are those of the most
    recent call in the log. *)
Definition last_recorded (m : Machine) : Prop :=
  exists id a0,
    last_call (klog m) = Some (id, a0) /\
    last_smc_id (stats m) = id /\ last_result (stats m) = s64 a0.

(** Since [m0] the RNG handed out between 8 and 14 words for every call
    added to the log. *)
Definition drawn_since (m0 m : Machine) : Prop :=
  exists evs,
    klog m = klog m0 ++ evs /\
    (drawn m0 + 8 * List.length (calls evs) <= drawn m
     <= drawn m0 + 14 * List.length (calls evs))%nat.

End Steps.



(** Proof step: evaluate the pattern-table lookup at a literal index. *)
Ltac pick_pattern :=
  match goal with
  | |- context [nth (Z.to_nat ?k) pattern_table PZero] =>
      let v := eval vm_compute in (nth (Z.to_nat k) pattern_table PZero) in
      change (nth (Z.to_nat k) pattern_table PZero) with v
  end.

(* ================================================================== *)
(** * Properties *)

Section Proofs.
Context {host : Host}.

(** ** Words *)

Lemma u64_range (x : Z) : 0 <= u64 x < 2 ^ 64.
Proof. unfold u64. apply Z.mod_pos_bound. lia. Qed.

Lemma u64_small (x : Z) : 0 <= x < 2 ^ 64 -> u64 x = x.
Proof. intros. unfold u64. apply Z.mod_small. lia. Qed.

Lemma u64_idem (x : Z) : u64 (u64 x) = u64 x.
Proof. unfold u64. apply Z.mod_mod. lia. Qed.

Lemma u64_add_l (x y : Z) : u64 (u64 x + y) = u64 (x + y).
Proof. unfold u64. rewrite Zplus_mod_idemp_l. reflexivity. Qed.

(** ** Strings *)

Lemma append_assoc (a b c : string) :
  ((a ++ b) ++ c = a ++ (b ++ c))%string.
Proof. induction a as [| x a IH]; cbn; [| rewrite IH]; reflexivity. Qed.

(** ** State passing *)

Lemma bind_eq {A B} (c : M A) (k : A -> M B) (m : Machine) :
  bind c k m = k (fst (c m)) (snd (c m)).
Proof. unfold bind. destruct (c m). reflexivity. Qed.

(** ** The classifier *)

Lemma execute_smc_eq (id a1 a2 a3 a4 a5 a6 : Z) (m : Machine) :
  execute_smc id a1 a2 a3 a4 a5 a6 m =
  let a0 := u64 (monitor (klog m) id [a1; a2; a3; a4; a5; a6]) in
  let bump := match classify a0 with
              | Valid => inc_valid
              | ErrorReturn => inc_error
              | _ => inc_interesting
              end in
  ((match classify a0 with ErrorReturn => -1 | _ => 0 end, a0),
   mk_machine (bump (set_last id (s64 a0) (stats m))) (fuzzing_enabled m)
              (drawn m) (klog m ++ [EvSmc id [a1; a2; a3; a4; a5; a6] a0])
              (pending m)).
Proof.
  unfold execute_smc, arm_smccc_smc, bind, modify, ret, classify; cbn.
  destruct (u64 _ =? 0); [reflexivity|].
  destruct (s64 _ <? 0); reflexivity.
Qed.

(** C2. The classifier assigns each result word exactly one outcome: zero
    is Valid, a word negative as a signed value is ErrorReturn, anything
    else is Interesting.  [execute_smc] increments the counter of that
    outcome and no other counter, and it records the identifier and the
    result on every call, whatever the outcome. *)
Theorem execute_smc_classifies :
  forall (id a1 a2 a3 a4 a5 a6 : Z) (m : Machine),
    let a0 := u64 (monitor (klog m) id [a1; a2; a3; a4; a5; a6]) in
    let r := execute_smc id a1 a2 a3 a4 a5 a6 m in
    let s' := stats (snd r) in
    snd (fst r) = a0 /\
    fst (fst r) = (match classify a0 with ErrorReturn => -1 | _ => 0 end) /\
    last_smc_id s' = id /\
    last_result s' = s64 a0 /\
    (forall o, counter o s' =
               if Outcome_eqb o (classify a0)
               then u64 (counter o (stats m) + 1)
               else counter o (stats m)) /\
    total_iterations s' = total_iterations (stats m) /\
    (classify a0 = Valid <-> a0 = 0) /\
    (classify a0 = ErrorReturn <-> 2 ^ 63 <= a0) /\
    (classify a0 = Interesting <-> 0 < a0 < 2 ^ 63) /\
    classify 0 = Valid /\
    classify (u64 (-1)) = ErrorReturn /\
    classify 1 = Interesting.
Proof.
  intros id a1 a2 a3 a4 a5 a6 m a0 r s'.
  subst r s'. rewrite execute_smc_eq. fold a0. cbn zeta.
  assert (R : 0 <= a0 < 2 ^ 64) by apply u64_range.
  assert (S : s64 a0 = if a0 <? 2 ^ 63 then a0 else a0 - 2 ^ 64).
  { unfold s64. rewrite (u64_small a0 R). reflexivity. }
  unfold classify. rewrite S.
  destruct (Z.eqb_spec a0 0) as [E0 | N0];
    [| destruct (Z.ltb_spec a0 (2 ^ 63)) as [Lt | Ge];
       [ destruct (Z.ltb_spec a0 0) as [Neg | Pos]; [lia |]
       | destruct (Z.ltb_spec (a0 - 2 ^ 64) 0) as [Neg | Pos]; [| lia] ] ];
    cbn; (repeat split); try reflexivity; try lia; try discriminate;
    try (intros o; destruct o; reflexivity).
Qed.

(** ** The identifier generator *)

Lemma advance_drawn (n : nat) (m : Machine) :
  drawn (advance n m) = (drawn m + n)%nat.
Proof. reflexivity. Qed.

Lemma advance_advance (a b : nat) (m : Machine) :
  advance b (advance a m) = advance (a + b) m.
Proof. unfold advance; cbn. f_equal. lia. Qed.

Lemma with_draw_advance (m : Machine) : with_draw m = advance 1 m.
Proof. unfold with_draw, advance. f_equal. lia. Qed.

Lemma namespace_prefix (x : Z) :
  Z.lor 0xb2000000 (Z.land x 0x00ffffff) = 0xb2000000 + x mod 2 ^ 24.
Proof.
  change 0x00ffffff with (Z.ones 24).
  rewrite Z.land_ones by lia.
  assert (D : Z.land 0xb2000000 (x mod 2 ^ 24) = 0).
  { change 0xb2000000 with (Z.shiftl 0xb2 24).
    apply Z.bits_inj'. intros n Hn.
    rewrite Z.land_spec, Z.bits_0.
    destruct (Z.lt_ge_cases n 24) as [Lo | Hi].
    - rewrite Z.shiftl_spec_low by assumption. reflexivity.
    - rewrite (Z.mod_pow2_bits_high x 24 n) by lia.
      apply andb_false_r. }
  pose proof (Z.add_lor_land 0xb2000000 (x mod 2 ^ 24)) as A.
  rewrite D in A. lia.
Qed.

Lemma generate_random_smc_id_eq (m : Machine) :
  generate_random_smc_id true m =
  let r0 := u32 (entropy (drawn m)) in
  let r1 := u32 (entropy (S (drawn m))) in
  (if picks_corpus r0
   then nth (Z.to_nat (r1 mod ARRAY_SIZE known_smc_ids)) known_smc_ids 0
   else Z.lor 0xb2000000 (Z.land r1 0x00ffffff),
   advance 2 m).
Proof.
  unfold generate_random_smc_id, get_random_u32, bind, ret. cbn zeta.
  replace (advance 2 m) with (with_draw (with_draw m))
    by (unfold with_draw, advance; cbn; f_equal; lia).
  destruct (picks_corpus _); reflexivity.
Qed.

Lemma picks_corpus_odd (r : Z) : picks_corpus r = Z.odd r.
Proof.
  unfold picks_corpus. rewrite Zmod_odd.
  destruct (Z.odd r); reflexivity.
Qed.

Lemma half_pick_corpus (n : nat) :
  List.length (filter picks_corpus (map Z.of_nat (seq 0 (2 * n)))) = n.
Proof.
  induction n as [| n IH]; [reflexivity |].
  replace (2 * S n)%nat with (2 * n + 2)%nat by lia.
  rewrite seq_app, map_app, filter_app, length_app, IH.
  cbn [seq map filter Nat.add].
  rewrite !picks_corpus_odd.
  replace (Z.of_nat (2 * n)) with (2 * Z.of_nat n) by lia.
  replace (Z.of_nat (S (2 * n))) with (1 + 2 * Z.of_nat n) by lia.
  rewrite Z.odd_add_mul_2, Z.odd_mul. cbn. lia.
Qed.

Lemma corpus_in_namespace (id : Z) :
  In id known_smc_ids -> 0xb2000000 <= id <= 0xb2ffffff.
Proof.
  unfold known_smc_ids. cbn [In].
  intros [E | [E | [E | [E | [E | [E | []]]]]]]; subst id;
    vm_compute; split; discriminate.
Qed.

(** C6. With [use_known] set, the identifier generator takes the corpus
    branch exactly when its first drawn word is odd, which is the case for
    one word value out of two; it then returns the corpus entry selected
    by a second draw.  Otherwise it returns the namespace prefix
    0xb2000000 OR-ed with the low 24 bits of a second draw.  In both cases
    the identifier lies in 0xb2000000..0xb2ffffff, two RNG words are
    consumed, nothing else changes, and the array index is in bounds:
    there is no error case. *)
Theorem generate_random_smc_id_in_namespace :
  forall m : Machine,
    let r0 := u32 (entropy (drawn m)) in
    let r1 := u32 (entropy (S (drawn m))) in
    let id := fst (generate_random_smc_id true m) in
    snd (generate_random_smc_id true m) = advance 2 m /\
    (if picks_corpus r0
     then nth_error known_smc_ids (Z.to_nat (r1 mod 6)) = Some id /\
          In id known_smc_ids
     else id = Z.lor 0xb2000000 (Z.land r1 0x00ffffff) /\
          id = 0xb2000000 + r1 mod 2 ^ 24) /\
    0xb2000000 <= id <= 0xb2ffffff /\
    picks_corpus r0 = Z.odd r0 /\
    (forall n : nat,
        List.length (filter picks_corpus (map Z.of_nat (seq 0 (2 * n)))) = n).
Proof.
  intros m r0 r1 id. subst id.
  rewrite generate_random_smc_id_eq. fold r0 r1. cbn [fst snd].
  change (ARRAY_SIZE known_smc_ids) with 6.
  assert (B : (Z.to_nat (r1 mod 6) < List.length known_smc_ids)%nat).
  { change (List.length known_smc_ids) with 6%nat.
    pose proof (Z.mod_pos_bound r1 6). lia. }
  assert (Mem : nth_error known_smc_ids (Z.to_nat (r1 mod 6)) =
                Some (nth (Z.to_nat (r1 mod 6)) known_smc_ids 0)).
  { apply nth_error_nth'. exact B. }
  assert (I : In (nth (Z.to_nat (r1 mod 6)) known_smc_ids 0) known_smc_ids).
  { apply nth_In. exact B. }
  split; [reflexivity |].
  split; [destruct (picks_corpus r0); split; auto using namespace_prefix |].
  split.
  - destruct (picks_corpus r0).
    + apply corpus_in_namespace. exact I.
    + rewrite namespace_prefix.
      pose proof (Z.mod_pos_bound r1 (2 ^ 24)). lia.
  - split; [apply picks_corpus_odd | apply half_pick_corpus].
Qed.

(** ** The parameter generator *)

Lemma low_bits_of_word (w : Z) (a b : Z) :
  0 <= a <= b -> (w mod 2 ^ b) mod 2 ^ a = w mod 2 ^ a.
Proof.
  intros [Ha Hab].
  apply Z.mod_mod_divide.
  exists (2 ^ (b - a)). rewrite <- Z.pow_add_r by lia. f_equal. lia.
Qed.

Lemma generate_random_param_eq (m : Machine) :
  generate_random_param m =
  (slot_value (drawn m), advance (slot_cells (drawn m)) m).
Proof.
  unfold generate_random_param, slot_value, slot_cells, slot_pattern.
  unfold bind at 1. unfold get_random_u32 at 1.
  set (x := u32 (entropy (drawn m)) mod 10).
  assert (Hx : 0 <= x < 10) by (apply Z.mod_pos_bound; lia).
  assert (A2 : advance 2 m = with_draw (with_draw m))
    by (unfold with_draw, advance; cbn; f_equal; lia).
  assert (C : x = 0 \/ x = 1 \/ x = 2 \/ x = 3 \/ x = 4 \/ x = 5 \/
              x = 6 \/ x = 7 \/ x = 8 \/ x = 9) by lia.
  destruct C as [C | [C | [C | [C | [C | [C | [C | [C | [C | C]]]]]]]]];
    rewrite C; pick_pattern; cbn [pattern_draws pattern_value];
    try (rewrite <- with_draw_advance; reflexivity);
    rewrite A2.
  - (* random 32-bit *) reflexivity.
  - (* random 64-bit *) reflexivity.
  - (* near page size *)
    unfold bind, get_random_u32, ret. cbn [with_draw drawn].
    f_equal.
    change 0xFFF with (Z.ones 12). rewrite Z.land_ones by lia.
    unfold u32 at 2. rewrite (low_bits_of_word _ 12 32) by lia.
    pose proof (Z.mod_pos_bound (entropy (S (drawn m))) (2 ^ 12)).
    unfold u32. apply Z.mod_small. lia.
  - (* random value masked to its low 32 bits *)
    unfold bind, get_random_u64, ret. cbn [with_draw drawn].
    f_equal.
    change 0xFFFFFFFF with (Z.ones 32). rewrite Z.land_ones by lia.
    unfold u64. apply (low_bits_of_word _ 32 64). lia.
Qed.

Lemma fill_params_eq (n : nat) (m : Machine) :
  fill_params n m =
  (map slot_value (slot_positions n (drawn m)),
   advance (slots_end n (drawn m) - drawn m) m).
Proof.
  revert m. induction n as [| n IH]; intros m.
  - cbn. unfold ret. f_equal. unfold advance.
    replace (drawn m + (drawn m - drawn m))%nat with (drawn m) by lia.
    destruct m; reflexivity.
  - cbn [fill_params slot_positions slots_end map].
    unfold bind at 1. rewrite generate_random_param_eq.
    unfold bind at 1. rewrite IH. unfold ret.
    rewrite advance_advance, advance_drawn. do 2 f_equal.
    assert (drawn m + slot_cells (drawn m) <=
            slots_end n (drawn m + slot_cells (drawn m)))%nat.
    { generalize (drawn m + slot_cells (drawn m))%nat. clear.
      induction n as [| n IH]; intros p; cbn; [lia |].
      specialize (IH (p + slot_cells p)%nat). lia. }
    lia.
Qed.

Lemma slot_positions_length (n p : nat) : List.length (slot_positions n p) = n.
Proof. revert p. induction n; intros p; cbn; [| rewrite IHn]; reflexivity. Qed.

Lemma slot_cells_range (p : nat) : (1 <= slot_cells p <= 2)%nat.
Proof. unfold slot_cells. destruct (slot_pattern p); cbn; lia. Qed.

Lemma slots_end_le (n p : nat) : (p <= slots_end n p)%nat.
Proof.
  revert p. induction n as [| n IH]; intros p; cbn; [lia |].
  specialize (IH (p + slot_cells p)%nat). lia.
Qed.

Lemma slot_positions_within (n p x : nat) :
  In x (slot_positions n p) ->
  (p <= x /\ x + slot_cells x <= slots_end n p)%nat.
Proof.
  revert p. induction n as [| n IH]; intros p; cbn; [tauto |].
  intros [E | I].
  - subst x. split; [lia | apply slots_end_le].
  - specialize (IH _ I). lia.
Qed.

Lemma slot_positions_apart (n p j k : nat) :
  (j < k < n)%nat ->
  (nth j (slot_positions n p) 0 + slot_cells (nth j (slot_positions n p) 0)
   <= nth k (slot_positions n p) 0)%nat.
Proof.
  revert p j k. induction n as [| n IH]; intros p j k H; [lia |].
  destruct k as [| k]; [lia |].
  cbn [slot_positions nth].
  destruct j as [| j].
  - apply (slot_positions_within n). apply nth_In.
    rewrite slot_positions_length. lia.
  - apply IH. lia.
Qed.

Lemma slot_pattern_listed (p : nat) : In (slot_pattern p) pattern_table.
Proof.
  unfold slot_pattern. apply nth_In.
  change (List.length pattern_table) with 10%nat.
  pose proof (Z.mod_pos_bound (u32 (entropy p)) 10). lia.
Qed.

Lemma fuzz_iteration_eq (m : Machine) :
  fuzz_iteration m =
  let m1 := with_stats inc_total m in
  let id := fst (generate_random_smc_id true m1) in
  let ps := slot_positions 6 (drawn m + 2) in
  let m2 := advance (slots_end 6 (drawn m + 2) - drawn m) m1 in
  (0, snd (execute_smc id (nth 0 (map slot_value ps) 0)
                       (nth 1 (map slot_value ps) 0)
                       (nth 2 (map slot_value ps) 0)
                       (nth 3 (map slot_value ps) 0)
                       (nth 4 (map slot_value ps) 0)
                       (nth 5 (map slot_value ps) 0) m2)).
Proof.
  unfold fuzz_iteration. unfold bind at 1. unfold modify at 1.
  unfold bind at 1. rewrite generate_random_smc_id_eq. cbn zeta.
  unfold bind at 1. rewrite fill_params_eq.
  rewrite advance_advance. cbn [advance drawn with_stats fst].
  unfold bind at 1.
  pose proof (slots_end_le 6 (drawn m + 2)) as L.
  replace (2 + (slots_end 6 (drawn m + 2) - (drawn m + 2)))%nat
    with (slots_end 6 (drawn m + 2) - drawn m)%nat by lia.
  match goal with
  | |- (let (_, _) := ?e in _) = _ => destruct e as [r mm] eqn:E
  end.
  cbn [snd]. reflexivity.
Qed.

(** C7. A fuzz iteration hands the secure monitor exactly six argument
    words.  Each is the value of one call of the parameter generator,
    which selects one of the ten patterns by a draw of its own (the drawn
    word modulo 10 indexes the pattern table) and, for the four random
    patterns, makes one further draw for the value: one or two RNG words
    per slot.  Every slot is filled
    from RNG words that no other slot and not the identifier generator
    read: the identifier uses the two words before the first slot, and
    each slot starts where the previous one stopped. *)
Theorem fuzz_iteration_arguments :
  forall m : Machine,
    let m' := snd (fuzz_iteration m) in
    let ps := slot_positions 6 (drawn m + 2) in
    List.length (map slot_value ps) = 6%nat /\
    (exists a0,
        klog m' = klog m ++ [EvSmc (fst (generate_random_smc_id true m))
                                   (map slot_value ps) a0]) /\
    (forall x : Machine,
        generate_random_param x =
        (pattern_value (slot_pattern (drawn x)) (entropy (S (drawn x))),
         advance (S (pattern_draws (slot_pattern (drawn x)))) x) /\
        slot_pattern (drawn x) =
        nth (Z.to_nat (u32 (entropy (drawn x)) mod 10)) pattern_table PZero /\
        In (slot_pattern (drawn x)) pattern_table) /\
    List.length pattern_table = 10%nat /\
    (forall p : nat, (1 <= slot_cells p <= 2)%nat) /\
    (forall j k : nat,
        (j < k < 6)%nat ->
        (nth j ps 0 + slot_cells (nth j ps 0) <= nth k ps 0)%nat) /\
    (forall p : nat,
        In p ps ->
        (drawn m + 2 <= p /\ p + slot_cells p <= drawn m')%nat) /\
    drawn (snd (generate_random_smc_id true m)) = (drawn m + 2)%nat.
Proof.
  intros m m' ps. subst m'.
  rewrite fuzz_iteration_eq. cbn zeta. cbn [snd].
  rewrite execute_smc_eq. cbn zeta. cbn [snd klog drawn advance with_stats].
  fold ps.
  assert (Len : List.length ps = 6%nat) by apply slot_positions_length.
  split; [rewrite length_map; exact Len |].
  split.
  { eexists. f_equal. f_equal.
    rewrite !generate_random_smc_id_eq. cbn zeta. cbn [fst].
    f_equal. }
  split.
  { intros x. split; [apply generate_random_param_eq |].
    split; [reflexivity | apply slot_pattern_listed]. }
  split; [reflexivity |].
  split; [apply slot_cells_range |].
  split; [intros j k H; apply slot_positions_apart; exact H |].
  split.
  - intros p I. pose proof (slot_positions_within 6 _ _ I) as W.
    pose proof (slots_end_le 6 (drawn m + 2)). lia.
  - rewrite generate_random_smc_id_eq. reflexivity.
Qed.

(** ** One iteration *)

Lemma execute_smc_effect (id a1 a2 a3 a4 a5 a6 : Z) (m : Machine) :
  let m' := snd (execute_smc id a1 a2 a3 a4 a5 a6 m) in
  fuzzing_enabled m' = fuzzing_enabled m /\
  pending m' = pending m /\
  drawn m' = drawn m /\
  total_iterations (stats m') = total_iterations (stats m) /\
  crashes (stats m') = crashes (stats m) /\
  hangs (stats m') = hangs (stats m) /\
  u64 (outcome_sum (stats m')) = u64 (outcome_sum (stats m) + 1) /\
  klog m' = klog m ++ [EvSmc id [a1; a2; a3; a4; a5; a6]
                             (u64 (monitor (klog m) id [a1; a2; a3; a4; a5; a6]))].
Proof.
  cbn zeta. rewrite execute_smc_eq. cbn zeta. cbn [snd].
  assert (B : forall x y z : Z, u64 (u64 (x + 1) + y + z) = u64 (x + y + z + 1)).
  { intros x y z. replace (u64 (x + 1) + y + z) with (u64 (x + 1) + (y + z)) by ring.
    rewrite u64_add_l. f_equal. ring. }
  destruct (classify _); cbn; (repeat split); unfold outcome_sum; cbn.
  - apply B.
  - replace (valid_responses (stats m) + u64 (error_responses (stats m) + 1)
             + interesting_cases (stats m))
      with (u64 (error_responses (stats m) + 1) + valid_responses (stats m)
            + interesting_cases (stats m)) by ring.
    rewrite B. f_equal. ring.
  - replace (valid_responses (stats m) + error_responses (stats m)
             + u64 (interesting_cases (stats m) + 1))
      with (u64 (interesting_cases (stats m) + 1) + valid_responses (stats m)
            + error_responses (stats m)) by ring.
    rewrite B. f_equal. ring.
  - replace (valid_responses (stats m) + error_responses (stats m)
             + u64 (interesting_cases (stats m) + 1))
      with (u64 (interesting_cases (stats m) + 1) + valid_responses (stats m)
            + error_responses (stats m)) by ring.
    rewrite B. f_equal. ring.
  - replace (valid_responses (stats m) + error_responses (stats m)
             + u64 (interesting_cases (stats m) + 1))
      with (u64 (interesting_cases (stats m) + 1) + valid_responses (stats m)
            + error_responses (stats m)) by ring.
    rewrite B. f_equal. ring.
Qed.

Lemma fuzz_iteration_effect (m : Machine) :
  let m' := snd (fuzz_iteration m) in
  fuzzing_enabled m' = fuzzing_enabled m /\
  pending m' = pending m /\
  total_iterations (stats m') = u64 (total_iterations (stats m) + 1) /\
  crashes (stats m') = crashes (stats m) /\
  hangs (stats m') = hangs (stats m) /\
  u64 (outcome_sum (stats m')) = u64 (outcome_sum (stats m) + 1) /\
  exists id args a0, klog m' = klog m ++ [EvSmc id args a0].
Proof.
  cbn zeta. rewrite fuzz_iteration_eq. cbn zeta. cbn [snd].
  match goal with
  | |- context [execute_smc ?id ?a1 ?a2 ?a3 ?a4 ?a5 ?a6 ?mm] =>
      pose proof (execute_smc_effect id a1 a2 a3 a4 a5 a6 mm) as E
  end.
  cbn zeta in E.
  destruct E as (E1 & E2 & _ & E4 & E5 & E6 & E7 & E8).
  rewrite E1, E2, E4, E5, E6, E7, E8.
  repeat split. eauto.
Qed.

(** ** The campaign loop *)

Lemma checks_passed_step (k : nat) (m : Machine) :
  checks_passed (S k) (fuzzing_enabled m) (pending m) =
  if fst (load_fuzzing_enabled m)
  then S (checks_passed k (fuzzing_enabled (snd (load_fuzzing_enabled m)))
                        (pending (snd (load_fuzzing_enabled m))))
  else O.
Proof.
  unfold load_fuzzing_enabled. cbn [checks_passed].
  destruct (pending m) as [| w r] eqn:P; cbn.
  - rewrite P. reflexivity.
  - reflexivity.
Qed.

Lemma load_fuzzing_enabled_frame (m : Machine) :
  stats (snd (load_fuzzing_enabled m)) = stats m /\
  klog (snd (load_fuzzing_enabled m)) = klog m /\
  drawn (snd (load_fuzzing_enabled m)) = drawn m /\
  fuzzing_enabled (snd (load_fuzzing_enabled m)) = fst (load_fuzzing_enabled m).
Proof.
  unfold load_fuzzing_enabled.
  destruct (pending m) as [| w r]; cbn; auto.
Qed.

Lemma campaign_loop_step (k : nat) (i : Z) (m : Machine) :
  campaign_loop (S k) i m =
  if fst (load_fuzzing_enabled m)
  then campaign_loop k (i + 1) (trip i m)
  else (i, snd (load_fuzzing_enabled m)).
Proof.
  cbn [campaign_loop]. unfold bind at 1, trip.
  destruct (load_fuzzing_enabled m) as [en m1]. cbn [fst snd].
  destruct en; cbn [negb]; [| reflexivity].
  unfold bind at 1.
  destruct (fuzz_iteration m1) as [z m2]. cbn [snd].
  unfold bind at 1.
  destruct (i mod 100 =? 0); reflexivity.
Qed.

Lemma trip_effect (i : Z) (m : Machine) :
  fst (load_fuzzing_enabled m) = true ->
  let m' := trip i m in
  fuzzing_enabled m' = true /\
  pending m' = pending (snd (load_fuzzing_enabled m)) /\
  total_iterations (stats m') = u64 (total_iterations (stats m) + 1) /\
  crashes (stats m') = crashes (stats m) /\
  hangs (stats m') = hangs (stats m) /\
  u64 (outcome_sum (stats m')) = u64 (outcome_sum (stats m) + 1) /\
  exists id args a0,
    klog m' = klog m ++ EvSmc id args a0 ::
                        (if i mod 100 =? 0 then [EvResched] else []).
Proof.
  intros En. cbn zeta. unfold trip.
  pose proof (load_fuzzing_enabled_frame m) as (L1 & L2 & _ & L4).
  pose proof (fuzz_iteration_effect (snd (load_fuzzing_enabled m))) as F.
  cbn zeta in F. destruct F as (F1 & F2 & F3 & F4 & F5 & F6 & id & args & a0 & F7).
  rewrite L1 in F3, F4, F5, F6. rewrite L2 in F7. rewrite L4, En in F1.
  destruct (i mod 100 =? 0); cbn [with_event stats fuzzing_enabled pending klog];
    repeat split; auto; exists id, args, a0; rewrite F7, <- ?app_assoc; reflexivity.
Qed.

Lemma mod100_of_nat (j : nat) :
  (Z.of_nat j mod 100 =? 0) = (j mod 100 =? 0)%nat.
Proof.
  change 100 with (Z.of_nat 100). rewrite <- Nat2Z.inj_mod.
  destruct (Nat.eqb_spec (j mod 100) 0) as [E | N].
  - rewrite E. reflexivity.
  - apply Z.eqb_neq. lia.
Qed.

Lemma yield_points_app (c : nat) (a b : list Event) :
  yield_points c (a ++ b) =
  yield_points c a ++ yield_points (c + List.length (calls a)) b.
Proof.
  revert c. induction a as [| e a IH]; intros c; cbn.
  - f_equal. lia.
  - destruct e; cbn.
    + rewrite IH. rewrite Nat.add_succ_r. reflexivity.
    + rewrite IH. reflexivity.
Qed.

Lemma campaign_loop_spec (k j : nat) (m : Machine) :
  let r := campaign_loop k (Z.of_nat j) m in
  let c := checks_passed k (fuzzing_enabled m) (pending m) in
  fst r = Z.of_nat (j + c) /\
  (c <= k)%nat /\
  u64 (total_iterations (stats (snd r))) =
    u64 (total_iterations (stats m) + Z.of_nat c) /\
  (0 <= total_iterations (stats m) < 2 ^ 64 ->
   0 <= total_iterations (stats (snd r)) < 2 ^ 64) /\
  crashes (stats (snd r)) = crashes (stats m) /\
  hangs (stats (snd r)) = hangs (stats m) /\
  u64 (outcome_sum (stats (snd r))) =
    u64 (outcome_sum (stats m) + Z.of_nat c) /\
  exists evs,
    klog (snd r) = klog m ++ evs /\
    List.length (calls evs) = c /\
    forall c0,
      yield_points c0 evs =
      map (fun x => c0 + S (x - j))%nat
          (filter (fun x => (x mod 100 =? 0)%nat) (seq j c)).
Proof.
  revert j m. induction k as [| k IH]; intros j m; cbn zeta.
  - cbn [campaign_loop checks_passed]. unfold ret. cbn [fst snd].
    rewrite !Z.add_0_r, Nat.add_0_r.
    repeat split; auto; try lia.
    exists []. rewrite app_nil_r. repeat split.
  - rewrite campaign_loop_step, checks_passed_step.
    pose proof (load_fuzzing_enabled_frame m) as (L1 & L2 & _ & L4).
    destruct (fst (load_fuzzing_enabled m)) eqn:En.
    + pose proof (trip_effect (Z.of_nat j) m En) as T. cbn zeta in T.
      destruct T as (T1 & T2 & T3 & T4 & T5 & T6 & id & args & a0 & T7).
      specialize (IH (S j) (trip (Z.of_nat j) m)). cbn zeta in IH.
      replace (Z.of_nat (S j)) with (Z.of_nat j + 1) in IH by lia.
      rewrite T1, T2 in IH. rewrite L4.
      set (c := checks_passed k true (pending (snd (load_fuzzing_enabled m)))) in *.
      destruct IH as (I1 & I2 & I3 & I4 & I5 & I6 & I7 & evs & I8 & I9 & I10).
      split; [rewrite I1; f_equal; lia |].
      split; [lia |].
      split.
      { rewrite I3, T3, u64_add_l. f_equal. lia. }
      split.
      { intros _. apply I4. rewrite T3. apply u64_range. }
      split; [congruence |]. split; [congruence |].
      split.
      { rewrite I7. rewrite <- u64_add_l, T6, u64_add_l. f_equal. lia. }
      exists (EvSmc id args a0 ::
              (if Z.of_nat j mod 100 =? 0 then [EvResched] else []) ++ evs).
      split.
      { rewrite I8, T7, <- app_assoc. reflexivity. }
      split.
      { unfold calls in *.
        destruct (Z.of_nat j mod 100 =? 0); cbn; rewrite I9; reflexivity. }
      intros c0. cbn [seq filter yield_points].
      rewrite yield_points_app, I10, mod100_of_nat.
      destruct (j mod 100 =? 0)%nat; cbn [yield_points map app calls filter List.length].
      * f_equal; [lia |].
        rewrite Nat.add_0_r.
        apply map_ext_in. intros x Hx.
        apply filter_In in Hx. destruct Hx as [Hx _].
        apply in_seq in Hx. lia.
      * rewrite Nat.add_0_r.
        apply map_ext_in. intros x Hx.
        apply filter_In in Hx. destruct Hx as [Hx _].
        apply in_seq in Hx. lia.
    + cbn [fst snd]. rewrite L1, L2, Nat.add_0_r.
      change (Z.of_nat 0) with 0. rewrite !Z.add_0_r.
      repeat split; auto; try lia.
      exists []. rewrite app_nil_r. repeat split.
Qed.

Lemma checks_passed_quiet (n : nat) : checks_passed n true [] = n.
Proof. induction n as [| n IH]; cbn; [| rewrite IH]; reflexivity. Qed.

Lemma checks_passed_enabled (n : nat) (p : list (option bool)) :
  enabled_throughout n true p = true -> checks_passed n true p = n.
Proof.
  unfold enabled_throughout. cbn [andb].
  revert p. induction n as [| n IH]; intros p H; [reflexivity |].
  destruct p as [| w r].
  - apply checks_passed_quiet.
  - cbn [firstn forallb] in H. apply andb_prop in H. destruct H as [Hw Hr].
    cbn [checks_passed].
    destruct w as [[|] |]; cbn in Hw; try discriminate;
      cbn; rewrite (IH r Hr); reflexivity.
Qed.

Lemma checks_passed_disabled (n k : nat) (rest : list (option bool)) :
  checks_passed n true (repeat None k ++ Some false :: rest) = Nat.min n k.
Proof.
  revert n. induction k as [| k IH]; intros n.
  - destruct n; reflexivity.
  - destruct n as [| n]; [reflexivity |].
    cbn [repeat app checks_passed Nat.min]. rewrite IH. reflexivity.
Qed.

Lemma run_fuzzing_campaign_spec (N : Z) (m : Machine) :
  let r := run_fuzzing_campaign N m in
  let c := checks_passed (Z.to_nat N) (fuzzing_enabled m) (pending m) in
  fst r = Z.of_nat c /\
  (c <= Z.to_nat N)%nat /\
  u64 (total_iterations (stats (snd r))) =
    u64 (total_iterations (stats m) + Z.of_nat c) /\
  (0 <= total_iterations (stats m) < 2 ^ 64 ->
   0 <= total_iterations (stats (snd r)) < 2 ^ 64) /\
  crashes (stats (snd r)) = crashes (stats m) /\
  hangs (stats (snd r)) = hangs (stats m) /\
  u64 (outcome_sum (stats (snd r))) =
    u64 (outcome_sum (stats m) + Z.of_nat c) /\
  exists evs,
    klog (snd r) = klog m ++ evs /\
    List.length (calls evs) = c /\
    yield_points 0 evs = map S (yield_indices c).
Proof.
  cbn zeta. unfold run_fuzzing_campaign.
  pose proof (campaign_loop_spec (Z.to_nat N) 0 m) as H. cbn zeta in H.
  change (Z.of_nat 0) with 0 in H.
  destruct H as (H1 & H2 & H3 & H4 & H5 & H6 & H7 & evs & H8 & H9 & H10).
  repeat (split; [solve [auto] |]).
  exists evs. split; [exact H8 |]. split; [exact H9 |].
  rewrite H10. unfold yield_indices. apply map_ext. intros x. lia.
Qed.

(** C3. A campaign of [N] iterations performs as many iterations as loop
    checks see the flag set before the first one that sees it clear, at
    most [N], and [total_iterations] (a 64-bit counter) grows by exactly
    that number.  When the flag stays set throughout, that number is [N].
    When a concurrent disable lands after [k < N] iterations, the next
    check stops the campaign after exactly [k] iterations; a disable seen
    after iteration 37 of a campaign of 1000 started on zeroed statistics
    leaves [total_iterations = 37]. *)
Theorem run_fuzzing_campaign_counts :
  forall (N : Z) (m : Machine),
    0 <= N ->
    0 <= total_iterations (stats m) < 2 ^ 64 ->
    let r := run_fuzzing_campaign N m in
    let c := Z.of_nat (checks_passed (Z.to_nat N) (fuzzing_enabled m) (pending m)) in
    fst r = c /\
    0 <= c <= N /\
    total_iterations (stats (snd r)) = u64 (total_iterations (stats m) + c) /\
    (total_iterations (stats m) + c < 2 ^ 64 ->
     total_iterations (stats (snd r)) = total_iterations (stats m) + c) /\
    (enabled_throughout (Z.to_nat N) (fuzzing_enabled m) (pending m) = true ->
     c = N) /\
    (forall (k : nat) (rest : list (option bool)),
        fuzzing_enabled m = true ->
        pending m = repeat None k ++ Some false :: rest ->
        Z.of_nat k < N ->
        c = Z.of_nat k) /\
    (N = 1000 ->
     fuzzing_enabled m = true ->
     (exists rest, pending m = repeat None 37 ++ Some false :: rest) ->
     total_iterations (stats m) = 0 ->
     fst r = 37 /\ total_iterations (stats (snd r)) = 37).
Proof.
  intros N m HN Ht r c.
  pose proof (run_fuzzing_campaign_spec N m) as S. cbn zeta in S.
  destruct S as (S1 & S2 & S3 & S4 & _).
  fold r in S1, S3, S4. fold c in S1, S3.
  assert (Hc : 0 <= c <= N) by (subst c; lia).
  assert (Tot : total_iterations (stats (snd r)) =
                u64 (total_iterations (stats m) + c)).
  { rewrite <- S3. symmetry. apply u64_small. apply S4. exact Ht. }
  assert (Stop : forall (k : nat) (rest : list (option bool)),
             fuzzing_enabled m = true ->
             pending m = repeat None k ++ Some false :: rest ->
             Z.of_nat k < N -> c = Z.of_nat k).
  { intros k rest En P Hk. subst c. rewrite En, P, checks_passed_disabled. lia. }
  split; [exact S1 |]. split; [exact Hc |]. split; [exact Tot |].
  split; [intros Small; rewrite Tot; apply u64_small; lia |].
  split.
  { intros E. unfold enabled_throughout in E.
    destruct (fuzzing_enabled m) eqn:En; [| discriminate].
    subst c. rewrite checks_passed_enabled by exact E. lia. }
  split; [exact Stop |].
  intros HN' En [rest P] Z0.
  assert (C37 : c = 37).
  { change 37 with (Z.of_nat 37). apply (Stop 37%nat rest En P). lia. }
  split; [congruence |].
  rewrite Tot, Z0, C37. reflexivity.
Qed.

(** C4 (amended). Within a campaign the loop calls [cond_resched] after
    exactly those iterations whose zero-based index is a multiple of 100,
    whatever the results of the calls are: the yields of a campaign that
    performed [c] iterations come after iteration [j + 1] for each
    multiple [j] of 100 below [c].  A campaign of 250 iterations that is
    not disabled therefore yields three times: after its 1st, 101st and
    201st iteration. *)
Theorem run_fuzzing_campaign_yields :
  forall (N : Z) (m : Machine),
    let r := run_fuzzing_campaign N m in
    let c := checks_passed (Z.to_nat N) (fuzzing_enabled m) (pending m) in
    (exists evs,
        klog (snd r) = klog m ++ evs /\
        List.length (calls evs) = c /\
        yield_points 0 evs = map S (yield_indices c) /\
        (N = 250 ->
         enabled_throughout 250 (fuzzing_enabled m) (pending m) = true ->
         yield_points 0 evs = [1; 101; 201]%nat)) /\
    (forall j : nat,
        In j (yield_indices c) <-> (j < c)%nat /\ (j mod 100 = 0)%nat) /\
    yield_indices 250 = [0; 100; 200]%nat.
Proof.
  intros N m r c.
  pose proof (run_fuzzing_campaign_spec N m) as S. cbn zeta in S.
  destruct S as (_ & _ & _ & _ & _ & _ & _ & evs & E1 & E2 & E3).
  fold r in E1. fold c in E2, E3.
  split.
  - exists evs. repeat split; auto.
    intros HN En. rewrite E3. subst c. rewrite HN.
    change (Z.to_nat 250) with 250%nat.
    unfold enabled_throughout in En.
    destruct (fuzzing_enabled m); [| discriminate].
    rewrite checks_passed_enabled by exact En.
    vm_compute. reflexivity.
  - split; [| vm_compute; reflexivity].
    intros j. unfold yield_indices. rewrite filter_In, in_seq, Nat.eqb_eq.
    lia.
Qed.

(** ** The seed-corpus test and module load *)

Lemma test_known_loop_spec (ids : list Z) (m : Machine) :
  let m' := snd (test_known_loop ids m) in
  fuzzing_enabled m' = fuzzing_enabled m /\
  pending m' = pending m /\
  drawn m' = drawn m /\
  total_iterations (stats m') = total_iterations (stats m) /\
  crashes (stats m') = crashes (stats m) /\
  hangs (stats m') = hangs (stats m) /\
  u64 (outcome_sum (stats m')) =
    u64 (outcome_sum (stats m) + Z.of_nat (List.length ids)) /\
  exists rs,
    List.length rs = List.length ids /\
    klog m' = klog m ++ map (fun c => EvSmc (fst c) [0; 0; 0; 0; 0; 0] (snd c))
                            (combine ids rs).
Proof.
  revert m. induction ids as [| id ids IH]; intros m; cbn zeta.
  - cbn. rewrite Z.add_0_r. repeat split.
    exists []. rewrite app_nil_r. split; reflexivity.
  - cbn [test_known_loop]. rewrite bind_eq.
    pose proof (execute_smc_effect id 0 0 0 0 0 0 m) as E. cbn zeta in E.
    set (m1 := snd (execute_smc id 0 0 0 0 0 0 m)) in *.
    destruct E as (E1 & E2 & E3 & E4 & E5 & E6 & E7 & E8).
    specialize (IH m1). cbn zeta in IH.
    destruct IH as (I1 & I2 & I3 & I4 & I5 & I6 & I7 & rs & I8 & I9).
    repeat (split; [congruence |]).
    split.
    + rewrite I7, <- u64_add_l, E7, u64_add_l. f_equal.
      cbn [List.length]. lia.
    + exists (u64 (monitor (klog m) id [0; 0; 0; 0; 0; 0]) :: rs).
      split; [cbn; congruence |].
      rewrite I9, E8, <- app_assoc. reflexivity.
Qed.

Lemma test_known_smcs_snd (m : Machine) :
  test_known_smcs m = (0, snd (test_known_loop known_smc_ids m)).
Proof.
  unfold test_known_smcs, bind, ret.
  destruct (test_known_loop known_smc_ids m). reflexivity.
Qed.

Lemma smc_fuzzer_init_loaded (m : Machine) :
  smc_fuzzer_init true m = test_known_smcs m.
Proof.
  unfold smc_fuzzer_init. cbn [negb]. unfold bind at 1.
  rewrite test_known_smcs_snd. reflexivity.
Qed.

(** C5. The seed-corpus test calls the secure monitor once for each of
    the six corpus identifiers, in corpus order and with six zero
    arguments; it makes no other call, consumes no RNG word and leaves
    the iteration count alone.  Module initialisation, once the /proc
    entry exists, consists of exactly one run of this test. *)
Theorem test_known_smcs_in_corpus_order :
  forall m : Machine,
    let r := test_known_smcs m in
    fst r = 0 /\
    drawn (snd r) = drawn m /\
    (exists rs,
        List.length rs = 6%nat /\
        klog (snd r) =
        klog m ++ map (fun c => EvSmc (fst c) [0; 0; 0; 0; 0; 0] (snd c))
                      (combine known_smc_ids rs)) /\
    known_smc_ids =
      [0xb2000003; 0xb2000004; 0xb2000007; 0xb2000009; 0xb200000a; 0xb200000b] /\
    NoDup known_smc_ids /\
    smc_fuzzer_init true m = test_known_smcs m /\
    smc_fuzzer_init false m = (- ENOMEM, m).
Proof.
  intros m r. subst r. rewrite test_known_smcs_snd. cbn [fst snd].
  pose proof (test_known_loop_spec known_smc_ids m) as T. cbn zeta in T.
  destruct T as (_ & _ & T3 & _ & _ & _ & _ & rs & T8 & T9).
  split; [reflexivity |]. split; [exact T3 |].
  split; [exists rs; split; [exact T8 | exact T9] |].
  split; [reflexivity |].
  split.
  - unfold known_smc_ids.
    repeat (constructor; [cbn; intros H; repeat destruct H as [H | H];
                          try discriminate H; exact H |]).
    constructor.
  - split; [rewrite smc_fuzzer_init_loaded; apply test_known_smcs_snd
           | reflexivity].
Qed.

(** ** The control surface *)

Lemma proc_write_decode (ok : bool) (ubuf : string) (m : Machine) :
  proc_write ok ubuf m =
  perform (decode ok ubuf) (Z.of_nat (String.length ubuf)) m.
Proof.
  unfold proc_write, decode.
  destruct (128 <=? _); [reflexivity |].
  destruct (negb ok); [reflexivity |].
  destruct (sscanf_fuzz_u _); [reflexivity |].
  repeat (match goal with
          | |- context [if ?c then _ else _] => destruct c; [reflexivity |]
          end).
  reflexivity.
Qed.

(** How far the outcome counters are ahead of the iteration count, in
    seed-corpus tests. *)
Lemma perform_ahead (v : Verb) (count k : Z) (m : Machine) :
  u64 (outcome_sum (stats m)) = u64 (total_iterations (stats m) + 6 * k) ->
  let m' := snd (perform v count m) in
  u64 (outcome_sum (stats m')) =
  u64 (total_iterations (stats m') + 6 * tests_since_reset k [v]).
Proof.
  intros A. cbn zeta.
  destruct v; cbn [perform tests_since_reset]; unfold bind, modify, ret;
    try exact A.
  - (* fuzz *)
    pose proof (run_fuzzing_campaign_spec iterations m) as S. cbn zeta in S.
    destruct (run_fuzzing_campaign iterations m) as [i m']. cbn [snd] in *.
    destruct S as (_ & _ & S3 & _ & _ & _ & S7 & _).
    rewrite S7, <- u64_add_l, A, u64_add_l.
    rewrite <- (u64_add_l (total_iterations (stats m'))), S3, u64_add_l.
    f_equal. ring.
  - (* test *)
    rewrite test_known_smcs_snd. cbn [snd].
    pose proof (test_known_loop_spec known_smc_ids m) as T. cbn zeta in T.
    destruct T as (_ & _ & _ & T4 & _ & _ & T7 & _).
    rewrite T7, T4, <- u64_add_l, A, u64_add_l. f_equal.
    change (Z.of_nat (List.length known_smc_ids)) with 6. ring.
  - (* reset *) reflexivity.
Qed.

Lemma perform_frame (v : Verb) (count : Z) (m : Machine) :
  let m' := snd (perform v count m) in
  (0 <= total_iterations (stats m) < 2 ^ 64 ->
   0 <= total_iterations (stats m') < 2 ^ 64) /\
  (crashes (stats m) = 0 -> crashes (stats m') = 0) /\
  (hangs (stats m) = 0 -> hangs (stats m') = 0).
Proof.
  cbn zeta.
  destruct v; cbn [perform]; unfold bind, modify, ret.
  1: { pose proof (run_fuzzing_campaign_spec iterations m) as S. cbn zeta in S.
       destruct (run_fuzzing_campaign iterations m) as [i m']. cbn [snd] in *.
       destruct S as (_ & _ & _ & S4 & S5 & S6 & _).
       repeat split; try congruence; apply S4; assumption. }
  1: { rewrite test_known_smcs_snd. cbn [snd].
       pose proof (test_known_loop_spec known_smc_ids m) as T. cbn zeta in T.
       destruct T as (_ & _ & _ & T4 & T5 & T6 & _).
       rewrite T4, T5, T6. repeat split; auto; lia. }
  all: cbn; repeat split; auto; lia.
Qed.

Lemma tests_since_reset_cons (k : Z) (v : Verb) (vs : list Verb) :
  tests_since_reset k (v :: vs) = tests_since_reset (tests_since_reset k [v]) vs.
Proof. destruct v; reflexivity. Qed.

Lemma tests_since_reset_nonneg (k : Z) (vs : list Verb) :
  0 <= k -> 0 <= tests_since_reset k vs.
Proof.
  revert k. induction vs as [| v vs IH]; intros k Hk; [exact Hk |].
  destruct v; cbn [tests_since_reset]; apply IH; lia.
Qed.

Lemma writes_cons (ok : bool) (w : string) (ws : list (bool * string))
      (m : Machine) :
  writes ((ok, w) :: ws) m =
  writes ws (snd (perform (decode ok w) (Z.of_nat (String.length w)) m)).
Proof.
  cbn [writes]. rewrite bind_eq, proc_write_decode. reflexivity.
Qed.

Lemma writes_ahead (ws : list (bool * string)) (k : Z) (m : Machine) :
  u64 (outcome_sum (stats m)) = u64 (total_iterations (stats m) + 6 * k) ->
  let s := stats (snd (writes ws m)) in
  u64 (outcome_sum s) =
  u64 (total_iterations s
       + 6 * tests_since_reset k (map (fun w => decode (fst w) (snd w)) ws)).
Proof.
  revert k m. induction ws as [| [ok w] ws IH]; intros k m A; cbn zeta.
  - exact A.
  - rewrite writes_cons. cbn [map fst snd]. rewrite tests_since_reset_cons.
    apply IH. apply perform_ahead. exact A.
Qed.

Lemma writes_frame (ws : list (bool * string)) (m : Machine) :
  let m' := snd (writes ws m) in
  (0 <= total_iterations (stats m) < 2 ^ 64 ->
   0 <= total_iterations (stats m') < 2 ^ 64) /\
  (crashes (stats m) = 0 -> crashes (stats m') = 0) /\
  (hangs (stats m) = 0 -> hangs (stats m') = 0).
Proof.
  revert m. induction ws as [| [ok w] ws IH]; intros m; cbn zeta.
  - cbn. auto.
  - rewrite writes_cons.
    pose proof (perform_frame (decode ok w) (Z.of_nat (String.length w)) m) as P.
    cbn zeta in P. destruct P as (P1 & P2 & P3).
    specialize (IH (snd (perform (decode ok w) (Z.of_nat (String.length w)) m))).
    cbn zeta in IH. destruct IH as (I1 & I2 & I3).
    auto.
Qed.

Lemma init_frame (created : bool) (d : nat) (p : list (option bool)) :
  let m := snd (smc_fuzzer_init created (insmod d p)) in
  total_iterations (stats m) = 0 /\
  crashes (stats m) = 0 /\
  hangs (stats m) = 0 /\
  u64 (outcome_sum (stats m)) = u64 (if created then 6 else 0).
Proof.
  cbn zeta. destruct created.
  - rewrite smc_fuzzer_init_loaded, test_known_smcs_snd. cbn [snd].
    pose proof (test_known_loop_spec known_smc_ids (insmod d p)) as T.
    cbn zeta in T. destruct T as (_ & _ & _ & T4 & T5 & T6 & T7 & _).
    rewrite T4, T5, T6, T7. repeat split.
  - cbn. repeat split.
Qed.

(** C1 (amended). After module load and any sequence of writes to the
    control file, the outcome counters Valid + ErrorReturn + Interesting
    equal, as 64-bit values, the iteration count plus six for every
    seed-corpus test run since the statistics were last zeroed (the test
    at module load included): campaigns count every call they classify,
    the seed-corpus test classifies its six calls without counting
    iterations.  From any state in which the counters agree, campaigns,
    enable, disable, reset and rejected writes keep them in agreement.
    The crash and hang counters take no part. *)
Theorem outcome_counters_track_iterations :
  forall (d : nat) (p : list (option bool)) (ws : list (bool * string)),
    let vs := map (fun w => decode (fst w) (snd w)) ws in
    let s := stats (snd (writes ws (snd (smc_fuzzer_init true (insmod d p))))) in
    let k := tests_since_reset 1 vs in
    u64 (outcome_sum s) = u64 (total_iterations s + 6 * k) /\
    0 <= total_iterations s < 2 ^ 64 /\
    0 <= k /\
    (k = 0 -> total_iterations s = u64 (outcome_sum s)) /\
    (forall (m : Machine) (k0 : Z),
        u64 (outcome_sum (stats m)) = u64 (total_iterations (stats m) + 6 * k0) ->
        u64 (outcome_sum (stats (snd (writes ws m)))) =
        u64 (total_iterations (stats (snd (writes ws m)))
             + 6 * tests_since_reset k0 vs)) /\
    (forall m : Machine,
        let s1 := stats (snd (test_known_smcs m)) in
        total_iterations s1 = total_iterations (stats m) /\
        u64 (outcome_sum s1) = u64 (outcome_sum (stats m) + 6)).
Proof.
  intros d p ws vs s k.
  pose proof (init_frame true d p) as I. cbn zeta in I.
  destruct I as (I1 & _ & _ & I4).
  pose proof (writes_frame ws (snd (smc_fuzzer_init true (insmod d p)))) as F.
  cbn zeta in F. destruct F as (F1 & _ & _).
  assert (A : u64 (outcome_sum s) = u64 (total_iterations s + 6 * k)).
  { apply (writes_ahead ws 1). rewrite I4, I1. reflexivity. }
  assert (R : 0 <= total_iterations s < 2 ^ 64).
  { apply F1. rewrite I1. lia. }
  split; [exact A |]. split; [exact R |].
  split; [apply tests_since_reset_nonneg; lia |].
  split.
  { intros K0. rewrite A, K0, Z.mul_0_r, Z.add_0_r. symmetry.
    apply u64_small. exact R. }
  split; [intros m k0 H; apply (writes_ahead ws k0 m H) |].
  intros m. cbn zeta. rewrite test_known_smcs_snd. cbn [snd].
  pose proof (test_known_loop_spec known_smc_ids m) as T. cbn zeta in T.
  destruct T as (_ & _ & _ & T4 & _ & _ & T7 & _).
  split; [exact T4 | exact T7].
Qed.

(** C10. From module load onward, whatever is written to the control
    file, the crash and hang counters are zero: nothing in the engine
    increments them and reset only writes them to zero again.  Both are
    nevertheless arguments of the status format, which therefore always
    shows them as 0. *)
Theorem crashes_and_hangs_stay_zero :
  forall (created : bool) (d : nat) (p : list (option bool))
         (ws : list (bool * string)),
    let m := snd (writes ws (snd (smc_fuzzer_init created (insmod d p)))) in
    crashes (stats m) = 0 /\
    hangs (stats m) = 0 /\
    exists pre post : string,
      status_text (fuzzing_enabled m) (stats m) =
      (pre ++ "Crashes: 0" ++ nl ++ "Hangs: 0" ++ nl ++ post)%string.
Proof.
  intros created d p ws m.
  pose proof (init_frame created d p) as I. cbn zeta in I.
  destruct I as (_ & I2 & I3 & _).
  pose proof (writes_frame ws (snd (smc_fuzzer_init created (insmod d p)))) as F.
  cbn zeta in F. destruct F as (_ & F2 & F3).
  assert (C : crashes (stats m) = 0) by (apply F2; exact I2).
  assert (H : hangs (stats m) = 0) by (apply F3; exact I3).
  split; [exact C |]. split; [exact H |].
  unfold status_text. rewrite C, H.
  exists ("SMC Fuzzer Status" ++ nl ++ "=================" ++ nl ++
          "Fuzzing Enabled: " ++ (if fuzzing_enabled m then "yes" else "no")
          ++ nl ++ "Total Iterations: " ++ fmt_llu (total_iterations (stats m))
          ++ nl)%string.
  eexists.
  change (fmt_llu 0) with "0"%string.
  rewrite !append_assoc. reflexivity.
Qed.

Lemma strncmp_prefix (lit s : string) :
  strncmp s lit (String.length lit) = 0 <-> begins lit s.
Proof.
  unfold begins. revert s. induction lit as [| c l IH]; intros s.
  - cbn. split; [intros _; exists s; reflexivity | reflexivity].
  - cbn [String.length strncmp]. destruct s as [| d r].
    + split; [discriminate | intros [t H]; discriminate H].
    + destruct (Ascii.eqb_spec d c) as [E | N].
      * subst d. rewrite IH. split; intros [t H]; exists t.
        -- subst r. reflexivity.
        -- cbn in H. injection H as H. exact H.
      * split.
        -- destruct (code d <? code c); discriminate.
        -- intros [t H]. cbn in H. injection H as H1 H2. congruence.
Qed.

Lemma match_literal_begins (lit s rest : string) :
  match_literal lit s = Some rest -> s = (lit ++ rest)%string.
Proof.
  revert s. induction lit as [| c l IH]; intros s H; cbn [match_literal] in H.
  - injection H as H. exact H.
  - destruct s as [| d r]; [discriminate H |].
    destruct (Ascii.eqb_spec c d) as [E | N]; [| discriminate H].
    subst d. cbn. f_equal. apply IH. exact H.
Qed.

Lemma strncmp_test (lit s : string) (n : nat) :
  n = String.length lit ->
  (strncmp s lit n =? 0) = true <-> begins lit s.
Proof. intros ->. rewrite Z.eqb_eq. apply strncmp_prefix. Qed.

(** C9 (amended). A write is rejected with -EINVAL, leaving every global
    and the environment untouched, exactly when it is 128 bytes or longer,
    or when its text is neither scanned by the format "fuzz %u" nor begins
    with one of test, enable, disable, reset.  (An unreadable user buffer
    gives -EFAULT, also without any change.)  Every other write is
    carried out: the verbs are matched as prefixes, so trailing text after
    a verb does not make a command malformed. *)
Theorem unknown_commands_change_nothing :
  forall (ok : bool) (ubuf : string) (m : Machine),
    let v := decode ok ubuf in
    let buf := cstr ubuf in
    (if is_rejected v
     then proc_write ok ubuf m = (- EINVAL, m)
     else fst (proc_write ok ubuf m) <> - EINVAL) /\
    (v = VFault -> proc_write ok ubuf m = (- EFAULT, m)) /\
    (is_rejected v = true <->
     128 <= Z.of_nat (String.length ubuf) \/
     (ok = true /\ sscanf_fuzz_u buf = None /\
      ~ begins "test" buf /\ ~ begins "enable" buf /\
      ~ begins "disable" buf /\ ~ begins "reset" buf)) /\
    (sscanf_fuzz_u buf <> None -> begins "fuzz" buf).
Proof.
  intros ok ubuf m v buf.
  split.
  { rewrite proc_write_decode. fold v.
    destruct v; cbn [is_rejected perform]; try reflexivity;
      unfold bind, modify, ret, EINVAL; cbn [fst snd];
      try (destruct (run_fuzzing_campaign _ _)); try (destruct (test_known_smcs _));
      cbn [fst]; try lia; unfold EFAULT; lia. }
  split.
  { intros E. rewrite proc_write_decode. fold v. rewrite E. reflexivity. }
  split.
  { subst v. unfold decode. fold buf.
    destruct (Z.leb_spec 128 (Z.of_nat (String.length ubuf))) as [Long | Short].
    { cbn. split; [intros _; left; exact Long | reflexivity]. }
    destruct ok; cbn [negb].
    2: { cbn. split; [discriminate | intros [L | [F _]]; [lia | discriminate]]. }
    destruct (sscanf_fuzz_u buf) as [n |].
    { cbn. split; [discriminate |].
      intros [L | (_ & F & _)]; [lia | discriminate]. }
    pose proof (strncmp_test "test" buf 4 eq_refl) as T.
    pose proof (strncmp_test "enable" buf 6 eq_refl) as En.
    pose proof (strncmp_test "disable" buf 7 eq_refl) as Di.
    pose proof (strncmp_test "reset" buf 5 eq_refl) as Re.
    destruct (strncmp buf "test" 4 =? 0).
    { cbn. split; [discriminate |].
      intros [L | (_ & _ & F & _)]; [lia | exfalso; apply F, T; reflexivity]. }
    destruct (strncmp buf "enable" 6 =? 0).
    { cbn. split; [discriminate |].
      intros [L | (_ & _ & _ & F & _)]; [lia | exfalso; apply F, En; reflexivity]. }
    destruct (strncmp buf "disable" 7 =? 0).
    { cbn. split; [discriminate |].
      intros [L | (_ & _ & _ & _ & F & _)]; [lia | exfalso; apply F, Di; reflexivity]. }
    destruct (strncmp buf "reset" 5 =? 0).
    { cbn. split; [discriminate |].
      intros [L | (_ & _ & _ & _ & _ & F)]; [lia | exfalso; apply F, Re; reflexivity]. }
    cbn. split; [| reflexivity].
    intros _. right.
    repeat split; try reflexivity;
      intros B; [apply T in B | apply En in B | apply Di in B | apply Re in B];
      discriminate B. }
  unfold sscanf_fuzz_u.
  destruct (match_literal "fuzz" buf) as [rest |] eqn:ML; [| congruence].
  intros _. exists rest. apply match_literal_begins. exact ML.
Qed.

Lemma zero_status_text_eq (enabled : bool) :
  status_text enabled zero_stats = zero_status_text enabled.
Proof. destruct enabled; reflexivity. Qed.

Lemma overlapped_read_before (m m' : Machine) :
  overlapped_read 0 m m' = (fuzzing_enabled m', stats m').
Proof.
  unfold overlapped_read, loads; cbn. destruct (stats m'); reflexivity.
Qed.

Lemma overlapped_read_after (m m' : Machine) :
  overlapped_read 9 m m' = (fuzzing_enabled m, stats m).
Proof.
  unfold overlapped_read, loads; cbn. destruct (stats m); reflexivity.
Qed.

(** C8 (amended). A write that is taken for reset zeroes all six counters
    and the last identifier and result, and changes nothing else; a status
    read that starts after it shows zero in every numeric field.  A read
    whose loads all come before the reset, or all after it, sees the
    statistics as they were before, respectively after, the reset.  No
    lock orders a read that overlaps the reset. *)
Theorem reset_zeroes_statistics :
  forall (ubuf : string) (m : Machine),
    decode true ubuf = VReset ->
    let r := proc_write true ubuf m in
    let m' := snd r in
    fst r = Z.of_nat (String.length ubuf) /\
    stats m' = zero_stats /\
    m' = mk_machine zero_stats (fuzzing_enabled m) (drawn m) (klog m) (pending m) /\
    proc_read 0 true m' =
      (Z.of_nat (String.length (zero_status_text (fuzzing_enabled m))),
       Z.of_nat (String.length (zero_status_text (fuzzing_enabled m))),
       zero_status_text (fuzzing_enabled m)) /\
    overlapped_read 0 m m' = (fuzzing_enabled m', zero_stats) /\
    overlapped_read 9 m m' = (fuzzing_enabled m, stats m).
Proof.
  intros ubuf m D r m'. subst m' r.
  rewrite proc_write_decode, D. cbn [perform].
  unfold bind, modify, ret. cbn [fst snd].
  split; [reflexivity |]. split; [reflexivity |]. split; [reflexivity |].
  split.
  { unfold proc_read. cbn [Z.gtb Z.compare negb with_stats stats fuzzing_enabled].
    rewrite zero_status_text_eq.
    destruct (fuzzing_enabled m); vm_compute; reflexivity. }
  split; [apply overlapped_read_before | apply overlapped_read_after].
Qed.

(* ------------------------------------------------------------------ *)
(** ** Further properties of the parser, the status read and the engine *)

Lemma match_literal_app (lit r : string) :
  match_literal lit (lit ++ r) = Some r.
Proof.
  induction lit as [| c l IH]; cbn; [reflexivity |].
  rewrite Ascii.eqb_refl. exact IH.
Qed.

Lemma isdigit_not_space (c : ascii) : isdigit c = true -> isspace c = false.
Proof.
  unfold isdigit, isspace. intros H.
  apply andb_prop in H. destruct H as [H1 H2].
  apply Z.leb_le in H1, H2.
  destruct (Z.leb_spec 9 (code c)), (Z.leb_spec (code c) 13),
    (Z.eqb_spec (code c) 32), (Z.eqb_spec (code c) 160); cbn; try reflexivity; lia.
Qed.

Lemma skip_spaces_app (ws r : string) :
  all_spaces ws = true -> skip_spaces (ws ++ r) = skip_spaces r.
Proof.
  induction ws as [| c ws IH]; cbn; [reflexivity |].
  intros H. apply andb_prop in H. destruct H as [H1 H2].
  rewrite H1. apply IH. exact H2.
Qed.

Lemma skip_spaces_digit (s : string) :
  starts_with_digit s = true -> skip_spaces s = s.
Proof.
  destruct s as [| c r]; cbn; [reflexivity |].
  intros H. rewrite (isdigit_not_space c H). reflexivity.
Qed.

Lemma parse_decimal_stop (tail : string) (acc : Z) :
  starts_with_digit tail = false -> parse_decimal tail acc = acc.
Proof. destruct tail as [| c r]; cbn; [reflexivity |]. intros ->. reflexivity. Qed.

Lemma u64_step (a k : Z) : u64 (u64 a * 10 + k) = u64 (10 * a + k).
Proof.
  unfold u64. rewrite Z.add_mod by lia. rewrite Z.mul_mod_idemp_l by lia.
  rewrite <- Z.add_mod by lia. f_equal. ring.
Qed.

Lemma parse_decimal_digits (d : Decimal.uint) (tail : string) (a : Z) :
  starts_with_digit tail = false ->
  parse_decimal (DecimalString.NilEmpty.string_of_uint d ++ tail) (u64 a) =
  u64 (eval_be d a).
Proof.
  intros T. revert a. induction d; intros a;
    cbn [DecimalString.NilEmpty.string_of_uint String.append eval_be];
    try (cbn [parse_decimal];
         match goal with
         | |- context [isdigit ?c] => change (isdigit c) with true
         end; cbv iota;
         match goal with
         | |- context [code ?c - 48] =>
             let v := eval vm_compute in (code c - 48) in
             change (code c - 48) with v
         end;
         rewrite u64_step, ?Z.add_0_r; apply IHd).
  apply parse_decimal_stop. exact T.
Qed.

Lemma of_uint_acc_eval (d : Decimal.uint) (acc : positive) :
  Z.pos (Pos.of_uint_acc d acc) = eval_be d (Z.pos acc).
Proof.
  revert acc. induction d; intros acc; cbn [Pos.of_uint_acc eval_be];
    try reflexivity; rewrite IHd; f_equal; lia.
Qed.

Lemma of_uint_eval (d : Decimal.uint) : Z.of_N (Pos.of_uint d) = eval_be d 0.
Proof.
  induction d; cbn [Pos.of_uint eval_be Z.mul Z.add]; try reflexivity;
    try exact IHd; cbn [Z.of_N]; rewrite of_uint_acc_eval; reflexivity.
Qed.

Lemma length_append (a b : string) :
  String.length (a ++ b) = (String.length a + String.length b)%nat.
Proof. induction a as [| x a IH]; cbn; [| rewrite IH]; reflexivity. Qed.

Lemma decode_interpret (ubuf : string) :
  Z.of_nat (String.length ubuf) < 128 ->
  decode true ubuf = interpret (cstr ubuf).
Proof.
  intros H. unfold decode, interpret.
  destruct (Z.leb_spec 128 (Z.of_nat (String.length ubuf))); [lia |].
  reflexivity.
Qed.

Lemma cstr_app (s t : string) :
  cstr (s ++ t) = if no_nul s then (s ++ cstr t)%string else cstr s.
Proof.
  induction s as [| c r IH]; cbn; [reflexivity |].
  destruct (Ascii.eqb c NUL); cbn; [reflexivity |].
  rewrite IH. destruct (no_nul r); reflexivity.
Qed.

Lemma cstr_no_nul (s : string) : no_nul s = true -> cstr s = s.
Proof.
  induction s as [| c r IH]; cbn; [reflexivity |].
  destruct (Ascii.eqb c NUL); cbn; [discriminate |].
  intros H. rewrite IH by exact H. reflexivity.
Qed.

Lemma cstr_cut (s t : string) : cstr (s ++ String NUL t) = cstr s.
Proof.
  induction s as [| c r IH]; cbn; [reflexivity |].
  destruct (Ascii.eqb c NUL); [reflexivity |]. rewrite IH. reflexivity.
Qed.

Lemma starts_with_digit_cstr (t : string) :
  starts_with_digit t = false -> starts_with_digit (cstr t) = false.
Proof.
  destruct t as [| c r]; cbn; [reflexivity |].
  destruct (Ascii.eqb c NUL); cbn; auto.
Qed.

Lemma no_nul_app (a b : string) :
  no_nul (a ++ b) = no_nul a && no_nul b.
Proof.
  induction a as [| c r IH]; cbn; [reflexivity |].
  rewrite IH, andb_assoc. reflexivity.
Qed.

Lemma isspace_not_nul (c : ascii) : isspace c = true -> Ascii.eqb c NUL = false.
Proof.
  intros H. destruct (Ascii.eqb_spec c NUL) as [E | N]; [| reflexivity].
  subst c. discriminate H.
Qed.

Lemma all_spaces_no_nul (ws : string) : all_spaces ws = true -> no_nul ws = true.
Proof.
  induction ws as [| c r IH]; cbn; [reflexivity |].
  intros H. apply andb_prop in H. destruct H as [H1 H2].
  rewrite (isspace_not_nul c H1), IH by exact H2. reflexivity.
Qed.

Lemma digits_no_nul (d : Decimal.uint) :
  no_nul (DecimalString.NilEmpty.string_of_uint d) = true.
Proof. induction d; cbn; auto. Qed.

Lemma digits_start (d : Decimal.uint) (tail : string) :
  d <> Decimal.Nil ->
  starts_with_digit (DecimalString.NilEmpty.string_of_uint d ++ tail) = true.
Proof. destruct d; intros H; [congruence | reflexivity ..]. Qed.

Lemma decimal_digits (n : N) :
  decimal n = DecimalString.NilEmpty.string_of_uint (N.to_uint n) /\
  N.to_uint n <> Decimal.Nil.
Proof.
  unfold decimal, DecimalString.NilZero.string_of_uint.
  destruct n as [| p]; cbn [N.to_uint].
  - split; [reflexivity | discriminate].
  - pose proof (DecimalPos.Unsigned.to_uint_nonnil p) as H.
    destruct (Pos.to_uint p); try (split; [reflexivity | discriminate]).
    contradiction.
Qed.

Lemma sscanf_digits (d : Decimal.uint) (ws tail : string) :
  d <> Decimal.Nil ->
  all_spaces ws = true ->
  starts_with_digit tail = false ->
  sscanf_fuzz_u ("fuzz" ++ ws ++ DecimalString.NilEmpty.string_of_uint d ++ tail) =
  Some (Z.of_N (N.of_uint d) mod 2 ^ 32).
Proof.
  intros Hd Hw Ht. unfold sscanf_fuzz_u.
  rewrite match_literal_app, skip_spaces_app by exact Hw.
  pose proof (digits_start d tail Hd) as S.
  rewrite skip_spaces_digit by exact S.
  destruct (DecimalString.NilEmpty.string_of_uint d ++ tail)%string
    as [| c r] eqn:E; [discriminate S |].
  cbn [starts_with_digit] in S. rewrite S. rewrite <- E.
  change 0 with (u64 0) at 1.
  rewrite parse_decimal_digits by exact Ht.
  unfold N.of_uint. rewrite of_uint_eval.
  f_equal. unfold u32, u64.
  apply (Z.mod_mod_divide _ (2 ^ 64) (2 ^ 32)).
  exists (2 ^ 32). reflexivity.
Qed.

(** X2. The iteration count of a fuzz command is its decimal numeral
    reduced modulo 2^32: any amount of white space, none included, may
    separate the verb from the digits, and whatever follows the digits is
    ignored.  The write is accepted and runs a campaign of that length. *)
Theorem fuzz_count_is_decimal_mod_2_32 :
  forall (n : N) (ws tail : string) (m : Machine),
    all_spaces ws = true ->
    starts_with_digit tail = false ->
    Z.of_nat (String.length ("fuzz" ++ ws ++ decimal n ++ tail)) < 128 ->
    sscanf_fuzz_u (cstr ("fuzz" ++ ws ++ decimal n ++ tail)) =
      Some (Z.of_N n mod 2 ^ 32) /\
    proc_write true ("fuzz" ++ ws ++ decimal n ++ tail) m =
      (Z.of_nat (String.length ("fuzz" ++ ws ++ decimal n ++ tail)),
       snd (run_fuzzing_campaign (Z.of_N n mod 2 ^ 32) m)).
Proof.
  intros n ws tail m Hw Ht Hl.
  destruct (decimal_digits n) as [Dn Nn].
  assert (C : cstr ("fuzz" ++ ws ++ decimal n ++ tail) =
              ("fuzz" ++ ws ++ decimal n ++ cstr tail)%string).
  { rewrite <- !append_assoc. rewrite cstr_app.
    rewrite !no_nul_app, (all_spaces_no_nul ws Hw), Dn, digits_no_nul.
    reflexivity. }
  assert (S : sscanf_fuzz_u (cstr ("fuzz" ++ ws ++ decimal n ++ tail)) =
              Some (Z.of_N n mod 2 ^ 32)).
  { rewrite C, Dn.
    rewrite sscanf_digits; auto using starts_with_digit_cstr.
    unfold N.of_uint. rewrite <- (DecimalN.Unsigned.of_to n) at 2.
    reflexivity. }
  split; [exact S |].
  unfold proc_write.
  destruct (Z.leb_spec 128
              (Z.of_nat (String.length ("fuzz" ++ ws ++ decimal n ++ tail))));
    [lia |].
  cbn [negb]. rewrite S. rewrite bind_eq. reflexivity.
Qed.

Lemma match_literal_extend (lit b str t : string) :
  match_literal lit b = Some str ->
  match_literal lit (b ++ t) = Some (str ++ t)%string.
Proof.
  intros H. apply match_literal_begins in H. subst b.
  rewrite append_assoc. apply match_literal_app.
Qed.

Lemma skip_spaces_extend (str t : string) (c : ascii) (r : string) :
  skip_spaces str = String c r ->
  skip_spaces (str ++ t) = (String c r ++ t)%string.
Proof.
  induction str as [| x str IH]; cbn; [discriminate |].
  destruct (isspace x); [exact IH |].
  intros H. injection H as -> ->. reflexivity.
Qed.

Lemma parse_decimal_extend (x t : string) (acc : Z) :
  starts_with_digit t = false ->
  parse_decimal (x ++ t) acc = parse_decimal x acc.
Proof.
  intros T. revert acc. induction x as [| c r IH]; intros acc; cbn.
  - apply parse_decimal_stop. exact T.
  - destruct (isdigit c); [apply IH | reflexivity].
Qed.

Lemma sscanf_extend (b t : string) (n : Z) :
  starts_with_digit t = false ->
  sscanf_fuzz_u b = Some n ->
  sscanf_fuzz_u (b ++ t) = Some n.
Proof.
  intros T. unfold sscanf_fuzz_u.
  destruct (match_literal "fuzz" b) as [str |] eqn:ML; [| discriminate].
  rewrite (match_literal_extend _ _ _ t ML).
  destruct (skip_spaces str) as [| c r] eqn:SS; [discriminate |].
  rewrite (skip_spaces_extend _ t _ _ SS). cbn [String.append].
  destruct (isdigit c); [| discriminate].
  change (String c (r ++ t)) with (String c r ++ t)%string.
  rewrite parse_decimal_extend by exact T. auto.
Qed.

Lemma interpret_extend (b t : string) :
  is_accepted (interpret b) = true ->
  starts_with_digit t = false ->
  interpret (b ++ t) = interpret b.
Proof.
  intros A T. unfold interpret in *.
  destruct (sscanf_fuzz_u b) as [n |] eqn:S.
  { rewrite (sscanf_extend b t n T S). reflexivity. }
  pose proof (strncmp_test "test" b 4 eq_refl) as Te.
  pose proof (strncmp_test "enable" b 6 eq_refl) as En.
  pose proof (strncmp_test "disable" b 7 eq_refl) as Di.
  pose proof (strncmp_test "reset" b 5 eq_refl) as Re.
  destruct (strncmp b "test" 4 =? 0).
  { destruct (proj1 Te eq_refl) as [r ->]. rewrite append_assoc. reflexivity. }
  destruct (strncmp b "enable" 6 =? 0).
  { destruct (proj1 En eq_refl) as [r ->]. rewrite append_assoc. reflexivity. }
  destruct (strncmp b "disable" 7 =? 0).
  { destruct (proj1 Di eq_refl) as [r ->]. rewrite append_assoc. reflexivity. }
  destruct (strncmp b "reset" 5 =? 0).
  { destruct (proj1 Re eq_refl) as [r ->]. rewrite append_assoc. reflexivity. }
  discriminate A.
Qed.

Lemma proc_write_interpret (ubuf : string) (m : Machine) :
  Z.of_nat (String.length ubuf) < 128 ->
  proc_write true ubuf m =
  perform (interpret (cstr ubuf)) (Z.of_nat (String.length ubuf)) m.
Proof.
  intros H. rewrite proc_write_decode, decode_interpret by exact H.
  reflexivity.
Qed.

Lemma perform_count_irrelevant (v : Verb) (c1 c2 : Z) (m : Machine) :
  snd (perform v c1 m) = snd (perform v c2 m).
Proof.
  destruct v; cbn [perform]; rewrite ?bind_eq; reflexivity.
Qed.

(** X3. A command that begins with fuzz but has no digit after the
    optional white space (nothing at all, a sign, a letter) is rejected
    with -EINVAL and changes nothing. *)
Theorem fuzz_without_count_is_rejected :
  forall (ubuf rest : string) (m : Machine),
    Z.of_nat (String.length ubuf) < 128 ->
    cstr ubuf = ("fuzz" ++ rest)%string ->
    starts_with_digit (skip_spaces rest) = false ->
    proc_write true ubuf m = (- EINVAL, m).
Proof.
  intros ubuf rest m L C D.
  rewrite proc_write_interpret by exact L. rewrite C.
  assert (S : sscanf_fuzz_u ("fuzz" ++ rest) = None).
  { unfold sscanf_fuzz_u. rewrite match_literal_app.
    destruct (skip_spaces rest) as [| c r]; [reflexivity |].
    cbn in D. rewrite D. reflexivity. }
  unfold interpret. rewrite S. reflexivity.
Qed.

(** X4. Text appended to an accepted command does not change what the
    command is taken for, provided it does not begin with a digit (which
    could lengthen an iteration count) and the write stays below 128
    bytes.  In particular the newline that echo appends is harmless. *)
Theorem trailing_text_keeps_command :
  forall (s t : string) (m : Machine),
    is_accepted (decode true s) = true ->
    starts_with_digit t = false ->
    Z.of_nat (String.length (s ++ t)) < 128 ->
    decode true (s ++ t) = decode true s /\
    snd (proc_write true (s ++ t) m) = snd (proc_write true s m).
Proof.
  intros s t m A T L.
  assert (Ls : Z.of_nat (String.length s) < 128)
    by (rewrite length_append in L; lia).
  assert (I : interpret (cstr (s ++ t)) = interpret (cstr s)).
  { rewrite decode_interpret in A by exact Ls.
    rewrite cstr_app. destruct (no_nul s) eqn:N; [| reflexivity].
    rewrite (cstr_no_nul s N) in *.
    apply interpret_extend; auto using starts_with_digit_cstr. }
  split.
  - rewrite !decode_interpret by assumption. exact I.
  - rewrite !proc_write_interpret by assumption. rewrite I.
    apply perform_count_irrelevant.
Qed.

(** X5. The parser reads the buffer as a C string: a NUL byte in the
    write ends the command, and the bytes after it have no effect. *)
Theorem text_after_nul_is_ignored :
  forall (s t : string) (m : Machine),
    Z.of_nat (String.length (s ++ String NUL t)) < 128 ->
    decode true (s ++ String NUL t) = decode true s /\
    snd (proc_write true (s ++ String NUL t) m) = snd (proc_write true s m).
Proof.
  intros s t m L.
  assert (Ls : Z.of_nat (String.length s) < 128)
    by (rewrite length_append in L; lia).
  split.
  - rewrite !decode_interpret by assumption. rewrite cstr_cut. reflexivity.
  - rewrite !proc_write_interpret by assumption. rewrite cstr_cut.
    apply perform_count_irrelevant.
Qed.
















Lemma campaign_loop_invariant (P : Machine -> Prop) :
  campaign_step P ->
  forall (k : nat) (i : Z) (m : Machine), P m -> P (snd (campaign_loop k i m)).
Proof.
  intros (HL & HF & HR). induction k as [| k IH]; intros i m Pm.
  - exact Pm.
  - rewrite campaign_loop_step.
    destruct (fst (load_fuzzing_enabled m)); [| cbn [snd]; apply HL, Pm].
    apply IH. unfold trip.
    destruct (i mod 100 =? 0); [apply HR |]; apply HF, HL, Pm.
Qed.

Lemma test_known_loop_invariant (P : Machine -> Prop) :
  engine_step P ->
  forall (ids : list Z) (m : Machine),
    (forall id, In id ids -> In id known_smc_ids) ->
    P m -> P (snd (test_known_loop ids m)).
Proof.
  intros (_ & HE & _). induction ids as [| id ids IH]; intros m Sub Pm.
  - exact Pm.
  - cbn [test_known_loop]. rewrite bind_eq.
    apply IH; [intros x Hx; apply Sub; right; exact Hx |].
    apply HE; [apply Sub; left; reflexivity | exact Pm].
Qed.

Lemma test_known_invariant (P : Machine -> Prop) (m : Machine) :
  engine_step P -> P m -> P (snd (test_known_smcs m)).
Proof.
  intros E Pm. rewrite test_known_smcs_snd. cbn [snd].
  apply test_known_loop_invariant; auto.
Qed.

Lemma perform_invariant (P : Machine -> Prop) (v : Verb) (count : Z)
      (m : Machine) :
  engine_step P ->
  is_reset v = false \/ reset_step P ->
  P m -> P (snd (perform v count m)).
Proof.
  intros E R Pm. pose proof E as (HC & _ & HEn).
  destruct v; cbn [perform]; rewrite ?bind_eq; cbn [snd modify ret];
    try exact Pm.
  - unfold run_fuzzing_campaign. apply campaign_loop_invariant; assumption.
  - apply test_known_invariant; assumption.
  - apply HEn, Pm.
  - apply HEn, Pm.
  - destruct R as [R | R]; [discriminate R | apply R, Pm].
Qed.

Lemma writes_invariant (P : Machine -> Prop) (ws : list (bool * string))
      (m : Machine) :
  engine_step P ->
  forallb (fun v => negb (is_reset v)) (decoded ws) = true \/ reset_step P ->
  P m -> P (snd (writes ws m)).
Proof.
  intros E. revert m. induction ws as [| [ok w] ws IH]; intros m R Pm.
  - exact Pm.
  - rewrite writes_cons. apply IH.
    + destruct R as [R | R]; [left | right; exact R].
      cbn in R. apply andb_prop in R. apply R.
    + apply perform_invariant; [exact E | | exact Pm].
      destruct R as [R | R]; [left | right; exact R].
      cbn in R. apply andb_prop in R. destruct R as [R _].
      destruct (is_reset (decode ok w)); [discriminate R | reflexivity].
Qed.

Lemma init_invariant (P : Machine -> Prop) (created : bool) (m : Machine) :
  engine_step P -> P m -> P (snd (smc_fuzzer_init created m)).
Proof.
  intros E Pm. destruct created.
  - rewrite smc_fuzzer_init_loaded. apply test_known_invariant; assumption.
  - exact Pm.
Qed.

Lemma generate_random_smc_id_range (use_known : bool) (m : Machine) :
  0xb2000000 <= fst (generate_random_smc_id use_known m) <= 0xb2ffffff.
Proof.
  assert (Syn : forall r, 0xb2000000 <= Z.lor 0xb2000000 (Z.land r 0x00ffffff)
                          <= 0xb2ffffff).
  { intros r. rewrite namespace_prefix.
    pose proof (Z.mod_pos_bound r (2 ^ 24)). lia. }
  destruct use_known.
  - rewrite generate_random_smc_id_eq. cbn zeta. cbn [fst].
    destruct (picks_corpus _); [| apply Syn].
    apply corpus_in_namespace. apply nth_In.
    change (ARRAY_SIZE known_smc_ids) with 6.
    change (List.length known_smc_ids) with 6%nat.
    pose proof (Z.mod_pos_bound (u32 (entropy (S (drawn m)))) 6). lia.
  - unfold generate_random_smc_id, bind, get_random_u32, ret. cbn [fst].
    apply Syn.
Qed.

Lemma slot_value_range (p : nat) : in_u64 (slot_value p).
Proof.
  unfold slot_value, in_u64.
  pose proof (Z.mod_pos_bound (entropy (S p)) (2 ^ 32)).
  pose proof (Z.mod_pos_bound (entropy (S p)) (2 ^ 64)).
  pose proof (Z.mod_pos_bound (entropy (S p)) (2 ^ 12)).
  destruct (slot_pattern p); cbn [pattern_value]; lia.
Qed.

Lemma fuzz_iteration_log (m : Machine) :
  exists a0,
    in_u64 a0 /\
    klog (snd (fuzz_iteration m)) =
    klog m ++ [EvSmc (fst (generate_random_smc_id true m))
                     (map slot_value (slot_positions 6 (drawn m + 2))) a0] /\
    stats (snd (fuzz_iteration m)) =
    (match classify a0 with
     | Valid => inc_valid
     | ErrorReturn => inc_error
     | _ => inc_interesting
     end) (set_last (fst (generate_random_smc_id true m)) (s64 a0)
                    (inc_total (stats m))).
Proof.
  rewrite fuzz_iteration_eq. cbn zeta. cbn [snd].
  rewrite execute_smc_eq. cbn zeta. cbn [snd klog stats advance with_stats].
  eexists. split; [apply u64_range |].
  replace (fst (generate_random_smc_id true (with_stats inc_total m)))
    with (fst (generate_random_smc_id true m))
    by (rewrite !generate_random_smc_id_eq; reflexivity).
  split; reflexivity.
Qed.

Lemma well_formed_engine :
  engine_step (fun m => Forall well_formed_call (klog m)).
Proof.
  unfold engine_step, campaign_step. repeat split.
  - intros m H. destruct (load_fuzzing_enabled_frame m) as (_ & L & _).
    rewrite L. exact H.
  - intros m H. destruct (fuzz_iteration_log m) as (a0 & R & L & _).
    rewrite L. apply Forall_app. split; [exact H |].
    constructor; [| constructor]. unfold well_formed_call.
    split; [apply generate_random_smc_id_range |].
    split; [rewrite length_map; apply slot_positions_length |].
    split; [| exact R].
    apply Forall_forall. intros x Hx. apply in_map_iff in Hx.
    destruct Hx as (p & <- & _). apply slot_value_range.
  - intros m H. cbn. apply Forall_app. split; [exact H |].
    constructor; [exact I | constructor].
  - intros id m Hid H. rewrite execute_smc_eq. cbn zeta. cbn [snd klog].
    apply Forall_app. split; [exact H |].
    constructor; [| constructor]. unfold well_formed_call.
    split; [apply corpus_in_namespace, Hid |].
    split; [reflexivity |].
    split; [| apply u64_range].
    repeat constructor; unfold in_u64; lia.
  - intros b m H. exact H.
Qed.

(** X8. Whatever is written to the control file, every call the module
    has issued since it was loaded carries an identifier in
    0xb2000000..0xb2ffffff and exactly six arguments, each a 64-bit
    word. *)
Theorem every_call_is_in_the_namespace :
  forall (created : bool) (d : nat) (p : list (option bool))
         (ws : list (bool * string)),
    Forall well_formed_call
           (klog (snd (writes ws (snd (smc_fuzzer_init created (insmod d p)))))).
Proof.
  intros created d p ws.
  apply (writes_invariant (fun m => Forall well_formed_call (klog m)));
    [apply well_formed_engine | right; intros m H; exact H |].
  apply (init_invariant (fun m => Forall well_formed_call (klog m)));
    [apply well_formed_engine | constructor].
Qed.

Lemma classify_three (a0 : Z) :
  classify a0 = Valid \/ classify a0 = ErrorReturn \/ classify a0 = Interesting.
Proof.
  unfold classify. destruct (a0 =? 0); [auto |].
  destruct (s64 a0 <? 0); auto.
Qed.

Lemma bump_counter (o : Outcome) (a0 : Z) (s : fuzz_stats) :
  counter o ((match classify a0 with
              | Valid => inc_valid
              | ErrorReturn => inc_error
              | _ => inc_interesting
              end) s) =
  if Outcome_eqb o (classify a0) then u64 (counter o s + 1) else counter o s.
Proof.
  destruct (classify_three a0) as [E | [E | E]]; rewrite E;
    destruct o; reflexivity.
Qed.

Lemma count_class_snoc (o : Outcome) (evs : list Event) (e : Event) :
  count_class o (evs ++ [e]) =
  count_class o evs + (if in_class o e then 1 else 0).
Proof.
  unfold count_class. rewrite filter_app, length_app. cbn [filter].
  destruct (in_class o e); cbn [List.length]; lia.
Qed.

Lemma counted_call (m0 m : Machine) (id a0 : Z) (args : list Z)
      (s' : fuzz_stats) (m' : Machine) :
  counted_since m0 m ->
  klog m' = klog m ++ [EvSmc id args a0] ->
  (forall o, counter o (stats m') =
             if Outcome_eqb o (classify a0)
             then u64 (counter o (stats m) + 1) else counter o (stats m)) ->
  counted_since m0 m'.
Proof.
  intros (evs & L & C) L' C'.
  exists (evs ++ [EvSmc id args a0]). split.
  - rewrite L', L, app_assoc. reflexivity.
  - intros o. rewrite count_class_snoc, C'. cbn [in_class].
    destruct (Outcome_eqb o (classify a0)).
    + rewrite u64_idem, <- u64_add_l, C, u64_add_l. f_equal. ring.
    + rewrite C. f_equal. ring.
Qed.

Lemma counted_engine (m0 : Machine) : engine_step (counted_since m0).
Proof.
  unfold engine_step, campaign_step. repeat split.
  - intros m (evs & L & C).
    destruct (load_fuzzing_enabled_frame m) as (S & K & _).
    exists evs. rewrite S, K. auto.
  - intros m H. destruct (fuzz_iteration_log m) as (a0 & _ & L & S).
    apply (counted_call m0 m _ a0 _ (stats (snd (fuzz_iteration m))) _ H L).
    intros o. rewrite S, bump_counter.
    destruct o; reflexivity.
  - intros m (evs & L & C). exists (evs ++ [EvResched]). split.
    + cbn. rewrite L, app_assoc. reflexivity.
    + intros o. rewrite count_class_snoc. cbn [in_class with_event stats].
      rewrite C. f_equal. ring.
  - intros id m _ H.
    apply (counted_call m0 m id
             (u64 (monitor (klog m) id [0; 0; 0; 0; 0; 0])) [0; 0; 0; 0; 0; 0]
             (stats (snd (execute_smc id 0 0 0 0 0 0 m))) _ H);
      rewrite execute_smc_eq; cbn zeta; cbn [snd klog stats]; [reflexivity |].
    intros o. rewrite bump_counter. destruct o; reflexivity.
  - intros b m (evs & L & C). exists evs. auto.
Qed.

Lemma counted_refl (m : Machine) : counted_since m m.
Proof.
  exists []. rewrite app_nil_r. split; [reflexivity |].
  intros o. unfold count_class. cbn. rewrite Z.add_0_r. reflexivity.
Qed.

(** X9. Over any sequence of writes that contains no reset, each outcome
    counter grows (as a 64-bit counter) by exactly the number of calls
    issued meanwhile whose result falls in its class; the crash and hang
    counters, into whose classes no result falls, do not move. *)
Theorem counters_count_the_calls_by_class :
  forall (ws : list (bool * string)) (m : Machine),
    forallb (fun v => negb (is_reset v)) (decoded ws) = true ->
    exists evs,
      klog (snd (writes ws m)) = klog m ++ evs /\
      forall o : Outcome,
        u64 (counter o (stats (snd (writes ws m)))) =
        u64 (counter o (stats m) + count_class o evs).
Proof.
  intros ws m NR.
  apply (writes_invariant (counted_since m));
    [apply counted_engine | left; exact NR | apply counted_refl].
Qed.

Lemma last_call_snoc_call (evs : list Event) (id a0 : Z) (args : list Z) :
  last_call (evs ++ [EvSmc id args a0]) = Some (id, a0).
Proof. unfold last_call. rewrite fold_left_app. reflexivity. Qed.

Lemma last_call_snoc_resched (evs : list Event) :
  last_call (evs ++ [EvResched]) = last_call evs.
Proof. unfold last_call. rewrite fold_left_app. reflexivity. Qed.

Lemma last_fields_of_bump (a0 : Z) (s : fuzz_stats) :
  last_smc_id ((match classify a0 with
                | Valid => inc_valid
                | ErrorReturn => inc_error
                | _ => inc_interesting
                end) s) = last_smc_id s /\
  last_result ((match classify a0 with
                | Valid => inc_valid
                | ErrorReturn => inc_error
                | _ => inc_interesting
                end) s) = last_result s.
Proof. destruct (classify a0); split; reflexivity. Qed.

Lemma execute_smc_records (id a1 a2 a3 a4 a5 a6 : Z) (m : Machine) :
  last_recorded (snd (execute_smc id a1 a2 a3 a4 a5 a6 m)).
Proof.
  rewrite execute_smc_eq. cbn zeta. cbn [snd].
  eexists _, _. cbn [klog stats]. rewrite last_call_snoc_call.
  split; [reflexivity |].
  destruct (last_fields_of_bump
              (u64 (monitor (klog m) id [a1; a2; a3; a4; a5; a6]))
              (set_last id (s64 (u64 (monitor (klog m) id
                                             [a1; a2; a3; a4; a5; a6])))
                        (stats m))) as [A B].
  rewrite A, B. split; reflexivity.
Qed.

Lemma fuzz_iteration_records (m : Machine) :
  last_recorded (snd (fuzz_iteration m)).
Proof.
  destruct (fuzz_iteration_log m) as (a0 & _ & L & S).
  exists (fst (generate_random_smc_id true m)), a0.
  rewrite L, S, last_call_snoc_call.
  split; [reflexivity |].
  destruct (last_fields_of_bump a0
              (set_last (fst (generate_random_smc_id true m)) (s64 a0)
                        (inc_total (stats m)))) as [A B].
  rewrite A, B. split; reflexivity.
Qed.

Lemma last_recorded_engine : engine_step last_recorded.
Proof.
  unfold engine_step, campaign_step. repeat split.
  - intros m (id & a0 & L & A & B).
    destruct (load_fuzzing_enabled_frame m) as (S & K & _).
    exists id, a0. rewrite S, K. auto.
  - intros m _. apply fuzz_iteration_records.
  - intros m (id & a0 & L & A & B). exists id, a0.
    cbn [with_event klog stats]. rewrite last_call_snoc_resched. auto.
  - intros id m _ _. apply execute_smc_records.
  - intros b m H. exact H.
Qed.

Lemma test_known_loop_records (id : Z) (ids : list Z) (m : Machine) :
  (forall x, In x ids -> In x known_smc_ids) ->
  last_recorded (snd (test_known_loop (id :: ids) m)).
Proof.
  intros Sub.
  change (test_known_loop (id :: ids) m)
    with (bind (execute_smc id 0 0 0 0 0 0) (fun _ => test_known_loop ids) m).
  rewrite bind_eq.
  apply test_known_loop_invariant;
    [apply last_recorded_engine | exact Sub | apply execute_smc_records].
Qed.

Lemma test_known_records (m : Machine) :
  last_recorded (snd (test_known_smcs m)).
Proof.
  rewrite test_known_smcs_snd. cbn [snd].
  apply test_known_loop_records.
  intros x H. right. exact H.
Qed.

(** X10. After module load and any sequence of writes without a reset,
    the last-identifier and last-result fields are the identifier and the
    signed result of the most recent call in the log. *)
Theorem last_fields_describe_last_call :
  forall (d : nat) (p : list (option bool)) (ws : list (bool * string)),
    forallb (fun v => negb (is_reset v)) (decoded ws) = true ->
    let m := snd (writes ws (snd (smc_fuzzer_init true (insmod d p)))) in
    exists id a0,
      last_call (klog m) = Some (id, a0) /\
      last_smc_id (stats m) = id /\ last_result (stats m) = s64 a0.
Proof.
  intros d p ws NR m. subst m.
  apply (writes_invariant last_recorded);
    [apply last_recorded_engine | left; exact NR |].
  rewrite smc_fuzzer_init_loaded. apply test_known_records.
Qed.

Lemma bump_in_range (a0 : Z) (s : fuzz_stats) :
  (forall o, in_u64 (counter o s)) ->
  forall o, in_u64 (counter o ((match classify a0 with
                                | Valid => inc_valid
                                | ErrorReturn => inc_error
                                | _ => inc_interesting
                                end) s)).
Proof.
  intros H o. rewrite bump_counter.
  destruct (Outcome_eqb o (classify a0)); [apply u64_range | apply H].
Qed.

Lemma counters_in_range_engine :
  engine_step (fun m => forall o, in_u64 (counter o (stats m))).
Proof.
  unfold engine_step, campaign_step.
  split; [split; [| split] | split].
  - intros m H o. destruct (load_fuzzing_enabled_frame m) as (S & _).
    rewrite S. apply H.
  - intros m H o. destruct (fuzz_iteration_log m) as (a0 & _ & _ & S).
    rewrite S. apply bump_in_range.
    intros o'. specialize (H o'). destruct o'; exact H.
  - intros m H. exact H.
  - intros id m _ H o. rewrite execute_smc_eq. cbn zeta. cbn [snd stats].
    apply bump_in_range.
    intros o'. specialize (H o'). destruct o'; exact H.
  - intros b m H. exact H.
Qed.

Lemma count_class_le_calls (o : Outcome) (evs : list Event) :
  count_class o evs <= Z.of_nat (List.length (calls evs)).
Proof.
  unfold count_class, calls. apply inj_le.
  induction evs as [| e evs IH]; [apply Nat.le_refl |].
  destruct e as [id args a0 |]; cbn [filter in_class is_call]; [| exact IH].
  destruct (Outcome_eqb o (classify a0)); cbn [List.length]; lia.
Qed.

Lemma count_class_sum (evs : list Event) :
  count_class Valid evs + count_class ErrorReturn evs
  + count_class Interesting evs = Z.of_nat (List.length (calls evs)).
Proof.
  unfold count_class, calls. induction evs as [| e evs IH]; [reflexivity |].
  destruct e as [id args a0 |]; cbn [filter in_class is_call]; [| exact IH].
  destruct (classify_three a0) as [E | [E | E]]; rewrite E;
    cbn [Outcome_eqb List.length]; lia.
Qed.

Lemma count_class_nonneg (o : Outcome) (evs : list Event) :
  0 <= count_class o evs.
Proof. unfold count_class. lia. Qed.

(** X11. A campaign started on zeroed statistics leaves the iteration
    count equal to the number of iterations performed, and the valid,
    error and interesting counters equal to the numbers of calls of their
    classes; the three add up to the iteration count exactly, with no
    wrap-around. *)
Theorem campaign_on_zeroed_statistics :
  forall (N : Z) (m : Machine),
    0 <= N < 2 ^ 32 ->
    stats m = zero_stats ->
    let m' := snd (run_fuzzing_campaign N m) in
    let c := Z.of_nat (checks_passed (Z.to_nat N) (fuzzing_enabled m)
                                     (pending m)) in
    total_iterations (stats m') = c /\
    valid_responses (stats m') + error_responses (stats m')
    + interesting_cases (stats m') = c /\
    exists evs,
      klog m' = klog m ++ evs /\
      valid_responses (stats m') = count_class Valid evs /\
      error_responses (stats m') = count_class ErrorReturn evs /\
      interesting_cases (stats m') = count_class Interesting evs.
Proof.
  intros N m HN Z0 m' c.
  pose proof (run_fuzzing_campaign_spec N m) as S. cbn zeta in S.
  fold m' in S.
  destruct S as (_ & Le & T & TR & _ & _ & _ & evs & L & NC & _).
  assert (Cnt : counted_since m m').
  { apply (campaign_loop_invariant (counted_since m));
      [apply counted_engine | apply counted_refl]. }
  destruct Cnt as (evs' & L' & C).
  assert (evs' = evs) by (rewrite L in L'; apply app_inv_head in L'; auto).
  subst evs'.
  assert (Rg : forall o, in_u64 (counter o (stats m'))).
  { apply (campaign_loop_invariant
             (fun x => forall o, in_u64 (counter o (stats x))));
      [apply counters_in_range_engine |].
    intros o. rewrite Z0. destruct o; cbn; unfold in_u64; lia. }
  pose proof (count_class_sum evs) as Sum. rewrite NC in Sum.
  assert (Hc : 0 <= c < 2 ^ 32) by (subst c; lia).
  fold c in Sum, T.
  assert (Ex : forall o, counter o (stats m') = count_class o evs).
  { intros o. specialize (C o). rewrite Z0 in C.
    pose proof (count_class_nonneg Valid evs).
    pose proof (count_class_nonneg ErrorReturn evs).
    pose proof (count_class_nonneg Interesting evs).
    pose proof (count_class_nonneg o evs).
    pose proof (count_class_le_calls o evs) as Le'. rewrite NC in Le'.
    fold c in Le'.
    rewrite (u64_small (counter o (stats m'))) in C by apply Rg.
    rewrite C. replace (counter o zero_stats) with 0 by (destruct o; reflexivity).
    apply u64_small. lia. }
  split.
  { rewrite Z0 in T. cbn [total_iterations zero_stats] in T.
    rewrite Z.add_0_l in T.
    assert (TRg : 0 <= total_iterations (stats m') < 2 ^ 64).
    { apply TR. rewrite Z0. cbn. lia. }
    rewrite (u64_small _ TRg) in T. rewrite T. apply u64_small. lia. }
  split.
  { rewrite <- Sum.
    rewrite <- (Ex Valid), <- (Ex ErrorReturn), <- (Ex Interesting).
    reflexivity. }
  exists evs. split; [exact L |].
  split; [apply (Ex Valid) |]. split; [apply (Ex ErrorReturn) | apply (Ex Interesting)].
Qed.

Lemma yield_points_length (c : nat) (evs : list Event) :
  List.length (yield_points c evs) = List.length (filter is_resched evs).
Proof.
  revert c. induction evs as [| e evs IH]; intros c; [reflexivity |].
  destruct e; cbn; [apply IH | f_equal; apply IH].
Qed.

Lemma yield_indices_succ (c : nat) :
  yield_indices (S c) =
  yield_indices c ++ (if (c mod 100 =? 0)%nat then [c] else []).
Proof.
  unfold yield_indices. rewrite seq_S, filter_app. cbn [filter Nat.add].
  destruct (c mod 100 =? 0)%nat; reflexivity.
Qed.

Lemma ceil_div_100_succ (c : nat) :
  ((S c + 99) / 100 =
   (c + 99) / 100 + (if (c mod 100 =? 0) then 1 else 0))%nat.
Proof.
  pose proof (Nat.div_mod_eq c 100) as D.
  pose proof (Nat.mod_upper_bound c 100 ltac:(lia)) as U.
  set (q := (c / 100)%nat) in *. set (r := (c mod 100)%nat) in *.
  destruct (Nat.eqb_spec r 0) as [E | N].
  - replace (S c + 99)%nat with (0 + (q + 1) * 100)%nat by lia.
    replace (c + 99)%nat with (99 + q * 100)%nat by lia.
    rewrite !Nat.div_add by lia. cbn. lia.
  - replace (S c + 99)%nat with (r + (q + 1) * 100)%nat by lia.
    replace (c + 99)%nat with ((r - 1) + (q + 1) * 100)%nat by lia.
    rewrite !Nat.div_add by lia.
    rewrite (Nat.div_small r 100) by lia.
    rewrite (Nat.div_small (r - 1) 100) by lia. lia.
Qed.

Lemma yield_indices_length (c : nat) :
  List.length (yield_indices c) = ((c + 99) / 100)%nat.
Proof.
  induction c as [| c IH]; [reflexivity |].
  rewrite yield_indices_succ, length_app, IH, ceil_div_100_succ.
  destruct (c mod 100 =? 0)%nat; reflexivity.
Qed.

(** X12. A campaign that performs [c] iterations issues [c] calls and
    yields the CPU [(c + 99) / 100] times, once for every started hundred
    of iterations, and logs nothing else. *)
Theorem campaign_yields_once_per_hundred :
  forall (N : Z) (m : Machine),
    let m' := snd (run_fuzzing_campaign N m) in
    let c := checks_passed (Z.to_nat N) (fuzzing_enabled m) (pending m) in
    exists evs,
      klog m' = klog m ++ evs /\
      List.length (calls evs) = c /\
      List.length (filter is_resched evs) = ((c + 99) / 100)%nat /\
      List.length evs = (c + (c + 99) / 100)%nat.
Proof.
  intros N m m' c.
  pose proof (run_fuzzing_campaign_spec N m) as S. cbn zeta in S.
  destruct S as (_ & _ & _ & _ & _ & _ & _ & evs & L & NC & Y).
  fold c in NC, Y.
  exists evs. split; [exact L |]. split; [exact NC |].
  assert (R : List.length (filter is_resched evs) = ((c + 99) / 100)%nat).
  { rewrite <- (yield_points_length 0), Y, length_map.
    apply yield_indices_length. }
  split; [exact R |].
  rewrite <- R, <- NC. unfold calls. clear.
  induction evs as [| e evs IH]; [reflexivity |].
  destruct e; cbn; lia.
Qed.

Lemma slots_end_bounds (n p : nat) :
  (p + n <= slots_end n p <= p + 2 * n)%nat.
Proof.
  revert p. induction n as [| n IH]; intros p; cbn [slots_end]; [lia |].
  pose proof (slot_cells_range p). specialize (IH (p + slot_cells p)%nat). lia.
Qed.

Lemma fuzz_iteration_drawn (m : Machine) :
  (drawn m + 8 <= drawn (snd (fuzz_iteration m)) <= drawn m + 14)%nat.
Proof.
  rewrite fuzz_iteration_eq. cbn zeta. cbn [snd].
  rewrite execute_smc_eq. cbn zeta. cbn [snd drawn advance with_stats].
  pose proof (slots_end_bounds 6 (drawn m + 2)). lia.
Qed.

Lemma drawn_campaign (m0 : Machine) : campaign_step (drawn_since m0).
Proof.
  unfold campaign_step. split; [| split].
  - intros m (evs & L & B).
    destruct (load_fuzzing_enabled_frame m) as (_ & K & D & _).
    exists evs. rewrite K, D. auto.
  - intros m (evs & L & B).
    destruct (fuzz_iteration_log m) as (a0 & _ & L' & _).
    pose proof (fuzz_iteration_drawn m) as D.
    eexists. split; [rewrite L', L, <- app_assoc; reflexivity |].
    unfold calls in *. rewrite filter_app, length_app.
    cbn [filter is_call List.length]. lia.
  - intros m (evs & L & B). exists (evs ++ [EvResched]). split.
    + cbn [with_event klog]. rewrite L, app_assoc. reflexivity.
    + unfold calls in *. rewrite filter_app, length_app.
      cbn [with_event drawn filter is_call List.length]. lia.
Qed.

(** X13. Every fuzz iteration takes between 8 and 14 words from the
    kernel RNG (two for the identifier, one or two per argument), so a
    campaign of [c] iterations takes between [8 c] and [14 c]; the
    seed-corpus test takes none. *)
Theorem campaign_draws_8_to_14_words_per_iteration :
  forall (N : Z) (m : Machine),
    let m' := snd (run_fuzzing_campaign N m) in
    let c := checks_passed (Z.to_nat N) (fuzzing_enabled m) (pending m) in
    (drawn m + 8 * c <= drawn m' <= drawn m + 14 * c)%nat /\
    drawn (snd (test_known_smcs m)) = drawn m.
Proof.
  intros N m m' c.
  pose proof (run_fuzzing_campaign_spec N m) as S. cbn zeta in S.
  destruct S as (_ & _ & _ & _ & _ & _ & _ & evs & L & NC & _).
  assert (D : drawn_since m m').
  { apply (campaign_loop_invariant (drawn_since m)); [apply drawn_campaign |].
    exists []. rewrite app_nil_r. cbn. split; [reflexivity | lia]. }
  destruct D as (evs' & L' & B).
  assert (evs' = evs) by (fold m' in L; rewrite L in L'; apply app_inv_head in L'; auto).
  subst evs'. fold c in NC. rewrite NC in B.
  split; [exact B |].
  rewrite test_known_smcs_snd. cbn [snd].
  apply (test_known_loop_spec known_smc_ids m).
Qed.


End Proofs.

(* ================================================================== *)
(** * Concrete runs *)

(** A campaign of 20 iterations on the echo host: the first call returns
    its sign-bit argument and is an error return, the other nineteen are
    interesting, and the loop yields once, after the first iteration. *)
Example echo_campaign_of_20 :
  stats (snd (@proc_write echo_host true "fuzz 20"
                          (insmod 0 []))) =
    mk_stats 20 0 0 19 0 1 0xb20000c3 4096 /\
  yield_points 0 (klog (snd (@proc_write echo_host true "fuzz 20"
                                         (insmod 0 [])))) = [1%nat].
Proof. vm_compute. split; reflexivity. Qed.

(** C1, as stated, fails on the code.  Module load runs the seed-corpus
    test: six calls are classified and no iteration is counted.  The same
    happens when "test" is written after "reset". *)
Lemma load_counts_outcomes_without_iterations :
  total_iterations
    (stats (snd (@smc_fuzzer_init quiet_host true (insmod 0 [])))) = 0 /\
  outcome_sum
    (stats (snd (@smc_fuzzer_init quiet_host true (insmod 0 [])))) = 6 /\
  total_iterations
    (stats (snd (@writes quiet_host [(true, "reset"); (true, "test")]
                         (insmod 0 []))))%string = 0 /\
  outcome_sum
    (stats (snd (@writes quiet_host [(true, "reset"); (true, "test")]
                         (insmod 0 []))))%string = 6 /\
  0 <> 6.
Proof. vm_compute. repeat split; discriminate. Qed.

(** C4, as stated, fails on the code.  A campaign of 250 iterations, every
    call answered with 0, reaches [cond_resched] three times, not twice:
    after its 1st, 101st and 201st iteration. *)
Lemma campaign_of_250_yields_three_times :
  stats (snd (@run_fuzzing_campaign quiet_host 250 (insmod 0 []))) =
    mk_stats 250 0 0 0 250 0 0xb2000000 0 /\
  yield_points 0 (klog (snd (@run_fuzzing_campaign quiet_host 250 (insmod 0 []))))
    = [1; 101; 201]%nat /\
  List.length
    (yield_points 0 (klog (snd (@run_fuzzing_campaign quiet_host 250
                                                      (insmod 0 []))))) = 3%nat /\
  yield_points 0 (klog (snd (@run_fuzzing_campaign quiet_host 250 (insmod 0 []))))
    <> [100; 200]%nat.
Proof. vm_compute. repeat split; discriminate. Qed.

(** C8, as stated, fails on the code.  A status read that has loaded the
    flag and the iteration count when the reset lands renders an iteration
    count of 1 next to zeroed outcome counters: neither the statistics
    before the reset nor those after it. *)
Lemma reset_seen_halfway :
  (fuzzing_enabled after_one_iteration, stats after_one_iteration) =
    (true, mk_stats 1 0 0 0 7 0 0xb2000000 0) /\
  (fuzzing_enabled after_reset, stats after_reset) = (true, zero_stats) /\
  overlapped_read 2 after_one_iteration after_reset =
    (true, mk_stats 1 0 0 0 0 0 0 0) /\
  overlapped_read 2 after_one_iteration after_reset <>
    (fuzzing_enabled after_one_iteration, stats after_one_iteration) /\
  overlapped_read 2 after_one_iteration after_reset <>
    (fuzzing_enabled after_reset, stats after_reset).
Proof. vm_compute. repeat split; discriminate. Qed.

(** C9, as stated, fails on the code.  "testing" is none of the five
    verbs, yet the write is accepted (7 bytes consumed) and runs the
    seed-corpus test: six calls reach the monitor and the statistics
    change.  Other verbs followed by trailing text are carried out
    likewise. *)
Lemma trailing_text_is_accepted :
  fst (@proc_write quiet_host true "testing" (insmod 0 [])) = 7 /\
  stats (snd (@proc_write quiet_host true "testing" (insmod 0 []))) =
    mk_stats 0 0 0 0 6 0 0xb200000b 0 /\
  stats (insmod 0 []) = zero_stats /\
  List.length (klog (snd (@proc_write quiet_host true "testing" (insmod 0 []))))
    = 6%nat /\
  decode true "testing" = VTest /\
  decode true "resetall" = VReset /\
  decode true "disabled" = VDisable /\
  decode true "fuzz 3 times" = VFuzz 3 /\
  decode true "frobnicate" = VUnknown.
Proof. vm_compute. repeat split. Qed.

(** The scenario of C3 on the quiet host: the disable that lands after 37
    iterations of a campaign of 1000 leaves 37 iterations counted. *)
Lemma run_fuzzing_campaign_counts_witness :
  0 <= 1000 /\
  0 <= total_iterations (stats disabled_after_37) < 2 ^ 64 /\
  fst (@run_fuzzing_campaign quiet_host 1000 disabled_after_37) = 37 /\
  total_iterations
    (stats (snd (@run_fuzzing_campaign quiet_host 1000 disabled_after_37))) = 37.
Proof.
  assert (H0 : 0 <= 1000) by lia.
  assert (H1 : 0 <= total_iterations (stats disabled_after_37) < 2 ^ 64)
    by (cbn; lia).
  split; [exact H0 |]. split; [exact H1 |].
  destruct (@run_fuzzing_campaign_counts quiet_host 1000 disabled_after_37 H0 H1)
    as (_ & _ & _ & _ & _ & _ & Scenario).
  apply Scenario.
  - reflexivity.
  - reflexivity.
  - exists []. reflexivity.
  - reflexivity.
Defined.

(** "reset" as echo writes it, with its newline, after one iteration. *)
Lemma reset_zeroes_statistics_witness :
  decode true ("reset" ++ nl) = VReset /\
  stats (snd (@proc_write quiet_host true ("reset" ++ nl) after_one_iteration))
    = zero_stats /\
  proc_read 0 true
    (snd (@proc_write quiet_host true ("reset" ++ nl) after_one_iteration)) =
    (494, 494, zero_status_text true).
Proof.
  assert (D : decode true ("reset" ++ nl) = VReset) by reflexivity.
  split; [exact D |].
  destruct (@reset_zeroes_statistics quiet_host ("reset" ++ nl)%string
                                     after_one_iteration D)
    as (_ & Z0 & _ & Rd & _).
  split; [exact Z0 | exact Rd].
Defined.

(* ------------------------------------------------------------------ *)
(** ** Instances of the further properties *)


(** X2 on a count above the 32-bit range: 4294967301 is read as 5. *)
Lemma fuzz_count_is_decimal_mod_2_32_witness :
  all_spaces " " = true /\
  starts_with_digit nl = false /\
  ("fuzz" ++ " " ++ decimal 4294967301 ++ nl = "fuzz 4294967301" ++ nl)%string /\
  Z.of_nat (String.length ("fuzz" ++ " " ++ decimal 4294967301 ++ nl)) < 128 /\
  sscanf_fuzz_u (cstr ("fuzz" ++ " " ++ decimal 4294967301 ++ nl)) = Some 5.
Proof.
  assert (W : all_spaces " " = true) by reflexivity.
  assert (T : starts_with_digit nl = false) by reflexivity.
  assert (L : Z.of_nat (String.length
                          ("fuzz" ++ " " ++ decimal 4294967301 ++ nl)) < 128)
    by reflexivity.
  split; [exact W |]. split; [exact T |]. split; [reflexivity |].
  split; [exact L |].
  destruct (@fuzz_count_is_decimal_mod_2_32 quiet_host 4294967301 " " nl
              (insmod 0 []) W T L) as (S & _).
  exact S.
Defined.

(** X3 on a signed count. *)
Lemma fuzz_without_count_is_rejected_witness :
  Z.of_nat (String.length "fuzz -1") < 128 /\
  cstr "fuzz -1" = ("fuzz" ++ " -1")%string /\
  starts_with_digit (skip_spaces " -1") = false /\
  @proc_write quiet_host true "fuzz -1" (insmod 0 []) = (- EINVAL, insmod 0 []).
Proof.
  assert (L : Z.of_nat (String.length "fuzz -1") < 128) by reflexivity.
  assert (C : cstr "fuzz -1" = ("fuzz" ++ " -1")%string) by reflexivity.
  assert (D : starts_with_digit (skip_spaces " -1") = false) by reflexivity.
  split; [exact L |]. split; [exact C |]. split; [exact D |].
  exact (@fuzz_without_count_is_rejected quiet_host "fuzz -1" " -1"
           (insmod 0 []) L C D).
Defined.

(** X4 on reset followed by the newline of echo. *)
Lemma trailing_text_keeps_command_witness :
  is_accepted (decode true "reset") = true /\
  starts_with_digit nl = false /\
  Z.of_nat (String.length ("reset" ++ nl)) < 128 /\
  decode true ("reset" ++ nl) = decode true "reset".
Proof.
  assert (A : is_accepted (decode true "reset") = true) by reflexivity.
  assert (T : starts_with_digit nl = false) by reflexivity.
  assert (L : Z.of_nat (String.length ("reset" ++ nl)) < 128) by reflexivity.
  split; [exact A |]. split; [exact T |]. split; [exact L |].
  destruct (@trailing_text_keeps_command quiet_host "reset" nl (insmod 0 [])
              A T L) as (D & _).
  exact D.
Defined.

(** X5 on test, a NUL byte and more text. *)
Lemma text_after_nul_is_ignored_witness :
  Z.of_nat (String.length ("test" ++ String NUL "fuzz 9")) < 128 /\
  decode true ("test" ++ String NUL "fuzz 9") = decode true "test".
Proof.
  assert (L : Z.of_nat (String.length ("test" ++ String NUL "fuzz 9")) < 128)
    by reflexivity.
  split; [exact L |].
  destruct (@text_after_nul_is_ignored quiet_host "test" "fuzz 9" (insmod 0 []) L)
    as (D & _).
  exact D.
Defined.


(** X9 on a test followed by a campaign of three. *)
Lemma counters_count_the_calls_by_class_witness :
  forallb (fun v => negb (is_reset v))
          (decoded [(true, "test"); (true, "fuzz 3")]%string) = true /\
  exists evs,
    klog (snd (@writes quiet_host [(true, "test"); (true, "fuzz 3")]%string
                       (insmod 0 []))) = klog (insmod 0 []) ++ evs /\
    forall o : Outcome,
      u64 (counter o (stats (snd (@writes quiet_host
                                          [(true, "test"); (true, "fuzz 3")]%string
                                          (insmod 0 []))))) =
      u64 (counter o (stats (insmod 0 [])) + count_class o evs).
Proof.
  assert (NR : forallb (fun v => negb (is_reset v))
                       (decoded [(true, "test"); (true, "fuzz 3")]%string) = true)
    by reflexivity.
  split; [exact NR |].
  exact (@counters_count_the_calls_by_class quiet_host
           [(true, "test"); (true, "fuzz 3")]%string (insmod 0 []) NR).
Defined.

(** X10 on the echo host after a campaign of two. *)
Lemma last_fields_describe_last_call_witness :
  forallb (fun v => negb (is_reset v)) (decoded [(true, "fuzz 2")]%string) = true /\
  exists id a0,
    last_call (klog (snd (@writes echo_host [(true, "fuzz 2")]%string
                            (snd (@smc_fuzzer_init echo_host true (insmod 0 []))))))
      = Some (id, a0) /\
    last_smc_id (stats (snd (@writes echo_host [(true, "fuzz 2")]%string
                               (snd (@smc_fuzzer_init echo_host true
                                                      (insmod 0 [])))))) = id /\
    last_result (stats (snd (@writes echo_host [(true, "fuzz 2")]%string
                               (snd (@smc_fuzzer_init echo_host true
                                                      (insmod 0 [])))))) = s64 a0.
Proof.
  assert (NR : forallb (fun v => negb (is_reset v))
                       (decoded [(true, "fuzz 2")]%string) = true)
    by reflexivity.
  split; [exact NR |].
  exact (@last_fields_describe_last_call echo_host 0%nat []
           [(true, "fuzz 2")]%string NR).
Defined.

(** X11 on the echo host: ten iterations on zeroed statistics. *)
Lemma campaign_on_zeroed_statistics_witness :
  0 <= 10 < 2 ^ 32 /\
  stats (insmod 0 []) = zero_stats /\
  total_iterations (stats (snd (@run_fuzzing_campaign echo_host 10 (insmod 0 []))))
    = 10 /\
  outcome_sum (stats (snd (@run_fuzzing_campaign echo_host 10 (insmod 0 []))))
    = 10.
Proof.
  assert (HN : 0 <= 10 < 2 ^ 32) by lia.
  assert (Z0 : stats (insmod 0 []) = zero_stats) by reflexivity.
  split; [exact HN |]. split; [exact Z0 |].
  destruct (@campaign_on_zeroed_statistics echo_host 10 (insmod 0 []) HN Z0)
    as (T & S & _).
  split; [exact T | exact S].
Defined.
